(** * ai-pptx: background pipeline, Whisk client and slide templates

    A shallow embedding of [lib/whisk-client.cjs], [lib/build-presentation.cjs]
    (phase 1, background generation) and [lib/slide-templates.cjs].

    The JavaScript code talks to the outside world (clock, random numbers,
    file system, HTTPS).  All of it is gathered in an environment [Env] of
    oracles indexed by a counter of interactions, so that nothing is assumed
    about what the world answers.  Code runs in a state-and-exception monad
    [M]; the state carries the interaction counter and the trace of the
    observable effects (requests sent, image files written).

    Console output is left out.  The lookup tables of the code (aspect
    ratios, prompt suffixes, gradients) are objects used as maps and are
    modelled as finite maps of their own keys.  Phases 2 to 4 of the build
    (markup files, assembly, thumbnails) belong to external collaborators
    and are not modelled beyond the five template functions. *)

From Stdlib Require Import String Ascii ZArith DecimalString Lia.
From stdpp Require Import base list strings gmap.

Open Scope string_scope.
Open Scope list_scope.

(** ** Strings *)

(** The double quote character, [U+0022]. *)
Definition dq : string := String "034"%char EmptyString.

(** Template-literal interpolation of a non-negative integer. *)
Definition show_nat (n : nat) : string := NilZero.string_of_uint (Nat.to_uint n).

(** Template-literal interpolation of an integer. *)
Definition show_Z (z : Z) : string := NilZero.string_of_int (Z.to_int z).

(** ** The outside world *)

(** What the code reads out of a JSON response body.  [imagePanels] lists, for
    each panel, the [encodedImage] of its [generatedImages] (an absent array is
    the empty list); [uploadMediaGenerationId] is the value found at
    [result.data.json.result.uploadMediaGenerationId]; [candidates] lists the
    [output] of the caption candidates (an absent output is the empty string). *)
Record Body := {
  imagePanels : list (list string);
  uploadMediaGenerationId : option string;
  candidates : list string;
}.

(** [response.json()] either yields the parsed body or throws. *)
Inductive Json :=
| JsonData (data : Body)
| JsonThrows (message : string).

Record Response := {
  resp_ok : bool;
  resp_status : nat;
  resp_text : string;
  resp_json : Json;
}.

(** [await fetch(...)] either rejects or resolves to a response. *)
Inductive FetchOutcome :=
| FetchRejects (message : string)
| FetchResolves (r : Response).

Record RecipeMediaInput := {
  rmi_caption : string;
  rmi_mediaCategory : string;
  rmi_mediaGenerationId : option string;
}.

(** The JSON payloads, without their constant fields. *)
Inductive Payload :=
| GeneratePayload (sessionId imageModel aspectRatio prompt : string) (seed : Z)
| RecipePayload (sessionId imageModel aspectRatio userInstruction : string)
    (recipeMediaInputs : list RecipeMediaInput) (seed : Z)
| UploadPayload (sessionId mediaCategory rawBytes : string)
| CaptionPayload (sessionId mediaCategory rawBytes : string).

Record Request := {
  req_url : string;
  req_bearer : string;
  req_payload : Payload;
}.

(** The content of [~/.whisk-proxy/token.json] as [loadToken] sees it.  A
    field is [None] when the parsed value does not have it; a field that is
    present has the documented type, a string for [accessToken] and a number
    of milliseconds for [expiresAt]. *)
Record TokenJson := {
  tj_accessToken : option string;
  tj_expiresAt : option Z;
}.

(** [TokenUnparseable] stands for every way [readFileSync] or [JSON.parse]
    may throw. *)
Inductive TokenFile :=
| TokenMissing
| TokenUnparseable
| TokenParsed (data : TokenJson).

Record Env := {
  path_join : list string -> string;
  path_dirname : string -> string;
  process_cwd : string;
  date_now : nat -> Z;
  random_seed : nat -> Z;
  fs_existsSync : nat -> string -> bool;
  fs_readBase64 : nat -> string -> option string;
  fs_write_ok : nat -> string -> bool;
  token_file : nat -> TokenFile;
  fetch : nat -> Request -> FetchOutcome;
}.

(** Observable effects. *)
Inductive Event :=
| EvFetch (req : Request) (out : FetchOutcome)
| EvWriteFile (path base64 : string)
| EvSharpPng (path svg : string).

Record State := {
  tick : nat;
  trace : list Event;
}.

(** ** The monad *)

Inductive Outcome (A : Type) :=
| Ok (a : A)
| Throw (message : string).
Arguments Ok {A} a.
Arguments Throw {A} message.

Definition M (A : Type) : Type := Env -> State -> Outcome A * State.

Definition ret {A} (a : A) : M A := fun _ st => (Ok a, st).

Definition bind {A B} (c : M A) (k : A -> M B) : M B :=
  fun env st =>
    match c env st with
    | (Ok a, st') => k a env st'
    | (Throw e, st') => (Throw e, st')
    end.

Definition throw {A} (message : string) : M A := fun _ st => (Throw message, st).

(** [try { c } catch (error) { h error.message }] *)
Definition try_catch {A} (c : M A) (h : string -> M A) : M A :=
  fun env st =>
    match c env st with
    | (Ok a, st') => (Ok a, st')
    | (Throw e, st') => h e env st'
    end.

Declare Scope js_scope.
Delimit Scope js_scope with js.
Notation "x <- c ;; k" := (bind c (fun x => k))
  (at level 100, c at next level, right associativity) : js_scope.
Notation "c ;;; k" := (bind c (fun _ => k))
  (at level 100, right associativity) : js_scope.
Open Scope js_scope.

(** One interaction with the world: read an oracle at the current tick. *)
Definition ask {A} (f : Env -> nat -> A) : M A :=
  fun env st => (Ok (f env (tick st)), {| tick := S (tick st); trace := trace st |}).

Definition emit (ev : Event) : M unit :=
  fun _ st => (Ok tt, {| tick := tick st; trace := trace st ++ [ev] |}).

Definition pure_env {A} (f : Env -> A) : M A := fun env st => (Ok (f env), st).

Fixpoint foldM {A B} (f : B -> A -> M B) (l : list A) (b : B) : M B :=
  match l with
  | [] => ret b
  | a :: l' => b' <- f b a ;; foldM f l' b'
  end.

(** ** Primitives of the platform *)

Definition Date_now : M Z := ask date_now.

Definition do_fetch (url : string) (token : string) (payload : Payload) : M Response :=
  let req := {| req_url := url; req_bearer := token; req_payload := payload |} in
  out <- ask (fun env t => fetch env t req) ;;
  emit (EvFetch req out) ;;;
  match out with
  | FetchRejects message => throw message
  | FetchResolves r => ret r
  end.

Definition response_json (r : Response) : M Body :=
  match resp_json r with
  | JsonData data => ret data
  | JsonThrows message => throw message
  end.

Definition existsSync (p : string) : M bool := ask (fun env t => fs_existsSync env t p).

Definition mkdirSync (p : string) : M unit :=
  ok <- ask (fun env t => fs_write_ok env t p) ;;
  if ok : bool then ret tt else throw "EACCES: mkdir".

Definition writeFileSync (p data : string) : M unit :=
  ok <- ask (fun env t => fs_write_ok env t p) ;;
  if ok : bool then emit (EvWriteFile p data) else throw "EACCES: write".

Definition readFileSync_base64 (p : string) : M string :=
  r <- ask (fun env t => fs_readBase64 env t p) ;;
  match r with
  | Some data => ret data
  | None => throw "EISDIR: read"
  end.

(** [await sharp(Buffer.from(svg)).png().toFile(outPath)] *)
Definition sharp_png_toFile (svg outPath : string) : M unit :=
  ok <- ask (fun env t => fs_write_ok env t outPath) ;;
  if ok : bool then emit (EvSharpPng outPath svg) else throw "sharp: write".

(** ** whisk-client.cjs *)

Module whisk.

Definition ENDPOINTS_generate := "https://aisandbox-pa.googleapis.com/v1/whisk:generateImage".
Definition ENDPOINTS_recipe := "https://aisandbox-pa.googleapis.com/v1/whisk:runImageRecipe".
Definition ENDPOINTS_upload := "https://labs.google/fx/api/trpc/backbone.uploadImage".
Definition ENDPOINTS_caption := "https://labs.google/fx/api/trpc/backbone.captionImage".

Definition MODELS_default := "IMAGEN_3_5".
Definition MODELS_refSingle := "GEM_PIX".
Definition MODELS_refMultiple := "R2I".

Definition ASPECT_RATIO_MAP : gmap string string :=
  list_to_map
    [ ("1:1", "IMAGE_ASPECT_RATIO_SQUARE");
      ("16:9", "IMAGE_ASPECT_RATIO_LANDSCAPE");
      ("9:16", "IMAGE_ASPECT_RATIO_PORTRAIT");
      ("4:3", "IMAGE_ASPECT_RATIO_LANDSCAPE");
      ("3:4", "IMAGE_ASPECT_RATIO_PORTRAIT");
      ("IMAGE_ASPECT_RATIO_SQUARE", "IMAGE_ASPECT_RATIO_SQUARE");
      ("IMAGE_ASPECT_RATIO_LANDSCAPE", "IMAGE_ASPECT_RATIO_LANDSCAPE");
      ("IMAGE_ASPECT_RATIO_PORTRAIT", "IMAGE_ASPECT_RATIO_PORTRAIT") ].

Definition normalizeAspectRatio (ratio : string) : string :=
  default "IMAGE_ASPECT_RATIO_SQUARE" (ASPECT_RATIO_MAP !! ratio).

Definition makeSessionId : M string :=
  now <- Date_now ;; ret (";" +:+ show_Z now).

Definition makeSeed : M Z := ask random_seed.

(** The result objects of the client: plain objects with a [success] flag
    and optional fields. *)
Record Result := {
  success : bool;
  images : option (list string);
  mediaId : option string;
  caption : option string;
  error : option string;
}.

(** [{ success: false, error }] *)
Definition failed (e : string) : Result :=
  {| success := false; images := None; mediaId := None; caption := None; error := Some e |}.

(** [{ success: true, images }] *)
Definition with_images (imgs : list string) : Result :=
  {| success := true; images := Some imgs; mediaId := None; caption := None; error := None |}.

(** [{ success: true, caption }] *)
Definition with_caption (c : string) : Result :=
  {| success := true; images := None; mediaId := None; caption := Some c; error := None |}.

(** JavaScript truthiness of an optional string and of an optional number. *)
Definition truthy_string (v : option string) : bool :=
  match v with
  | Some s => negb (String.eqb s "")
  | None => false
  end.

Definition truthy_number (v : option Z) : bool :=
  match v with
  | Some z => negb (z =? 0)%Z
  | None => false
  end.

Record Token := {
  accessToken : string;
  expiresAt : Z;
}.

(** Load and validate the Whisk token. *)
Definition loadToken : M (option Token) :=
  try_catch
    (file <- ask token_file ;;
     match file with
     | TokenMissing => ret None
     | TokenUnparseable => throw "SyntaxError"
     | TokenParsed data =>
         if negb (truthy_string (tj_accessToken data))
            || negb (truthy_number (tj_expiresAt data))
         then ret None
         else
           (* both fields are truthy, hence present *)
           match tj_accessToken data, tj_expiresAt data with
           | Some a, Some e =>
               now <- Date_now ;;
               if (e <? now + 300000)%Z then ret None
               else ret (Some {| accessToken := a; expiresAt := e |})
           | _, _ => ret None
           end
     end)
    (fun _ => ret None).

(** What both generation calls do with the response. *)
Definition read_images (response : Response) : M Result :=
  if negb (resp_ok response) then
    ret (failed ("HTTP " +:+ show_nat (resp_status response) +:+ ": " +:+ resp_text response))
  else
    data <- response_json response ;;
    match imagePanels data with
    | generatedImages :: _ =>
        if (0 <? length generatedImages)%nat then ret (with_images generatedImages)
        else ret (failed "No image data in response")
    | [] => ret (failed "No image data in response")
    end.

(** Generate image from text prompt (no references). *)
Definition generateImage (prompt aspectRatio accessToken : string) : M Result :=
  try_catch
    (sessionId <- makeSessionId ;;
     seed <- makeSeed ;;
     let payload :=
       GeneratePayload sessionId MODELS_default (normalizeAspectRatio aspectRatio) prompt seed in
     response <- do_fetch ENDPOINTS_generate accessToken payload ;;
     read_images response)
    (fun message => ret (failed message)).

(** Upload a reference image for style/subject transfer. *)
Definition uploadReference (base64Data category accessToken : string) : M Result :=
  try_catch
    (sessionId <- makeSessionId ;;
     let payload := UploadPayload sessionId category base64Data in
     response <- do_fetch ENDPOINTS_upload accessToken payload ;;
     if negb (resp_ok response) then
       ret (failed ("Upload HTTP " +:+ show_nat (resp_status response)))
     else
       data <- response_json response ;;
       if truthy_string (uploadMediaGenerationId data) then
         ret {| success := true; images := None; mediaId := uploadMediaGenerationId data;
                caption := None; error := None |}
       else ret (failed "No Media ID returned"))
    (fun message => ret (failed message)).

(** Get AI caption for an image. *)
Definition getCaptionForImage (base64Data category accessToken : string) : M Result :=
  try_catch
    (sessionId <- makeSessionId ;;
     let payload := CaptionPayload sessionId category base64Data in
     response <- do_fetch ENDPOINTS_caption accessToken payload ;;
     if negb (resp_ok response) then
       ret (failed ("Caption HTTP " +:+ show_nat (resp_status response)))
     else
       data <- response_json response ;;
       match candidates data with
       | output :: _ => ret (with_caption output)
       | [] => ret (with_caption "")
       end)
    (fun message => ret (failed message)).

(** A previously uploaded image usable as a style input. *)
Record StyleReference := {
  ref_category : string;
  ref_mediaId : option string;
  ref_caption : option string;
}.

(** Generate image using reference images (style transfer). *)
Definition generateWithReference (prompt aspectRatio accessToken : string)
    (references : list StyleReference) : M Result :=
  try_catch
    (let recipeMediaInputs :=
       map (fun ref => {| rmi_caption := default "" (ref_caption ref);
                          rmi_mediaCategory := ref_category ref;
                          rmi_mediaGenerationId := ref_mediaId ref |}) references in
     sessionId <- makeSessionId ;;
     seed <- makeSeed ;;
     let payload :=
       RecipePayload sessionId
         (if (length references =? 1)%nat then MODELS_refSingle else MODELS_refMultiple)
         (normalizeAspectRatio aspectRatio) prompt recipeMediaInputs seed in
     response <- do_fetch ENDPOINTS_recipe accessToken payload ;;
     read_images response)
    (fun message => ret (failed message)).

(** Upload image + get caption in one call.  [Promise.all] starts the caption
    request, then the upload request; neither can reject. *)
Definition uploadAndAnalyze (base64Data category accessToken : string) : M Result :=
  captionResult <- getCaptionForImage base64Data category accessToken ;;
  uploadResult <- uploadReference base64Data category accessToken ;;
  let caption' := if success captionResult then caption captionResult else Some "" in
  if success uploadResult then
    ret {| success := true; images := None; mediaId := mediaId uploadResult;
           caption := caption'; error := None |}
  else
    ret {| success := false; images := None; mediaId := None; caption := None;
           error := error uploadResult |}.

(** Save base64 image data to file. *)
Definition saveBase64Image (base64Data filePath : string) : M unit :=
  dir <- pure_env (fun env => path_dirname env filePath) ;;
  dirExists <- existsSync dir ;;
  (if dirExists : bool then ret tt else mkdirSync dir) ;;;
  writeFileSync filePath base64Data.

End whisk.

(** ** slide-templates.cjs *)

Module templates.

Import whisk.

Definition SLIDE_W : nat := 720.
Definition SLIDE_H : nat := 405.

(** The fields of a slide descriptor; [None] is an absent property. *)
Record Metric := {
  m_value : option string;
  m_label : option string;
}.

Record Feature := {
  f_title : option string;
  f_description : option string;
}.

Record Slide := {
  type : string;
  title : option string;
  subtitle : option string;
  date : option string;
  bullets : option (list string);
  metrics : option (list Metric);
  chartLabel : option string;
  features : option (list Feature);
  heading : option string;
  contactLines : option (list string);
}.

(** [s.replace(/c/g, by)] for a one-character pattern. *)
Fixpoint replace_all (c : ascii) (by_ : string) (s : string) : string :=
  match s with
  | EmptyString => EmptyString
  | String a s' =>
      if Ascii.eqb a c then by_ +:+ replace_all c by_ s'
      else String a (replace_all c by_ s')
  end.

Definition esc (str : option string) : string :=
  if negb (truthy_string str) then EmptyString
  else
    replace_all "034"%char "&quot;"
      (replace_all ">"%char "&gt;"
         (replace_all "<"%char "&lt;"
            (replace_all "&"%char "&amp;" (default EmptyString str)))).

Definition baseStyles : string :=
  "
    * { margin: 0; padding: 0; box-sizing: border-box; }
    body {
      width: " +:+ show_nat SLIDE_W +:+ "pt;
      height: " +:+ show_nat SLIDE_H +:+ "pt;
      font-family: Arial, Helvetica, sans-serif;
      color: #ffffff;
      overflow: hidden;
      position: relative;
      background-size: cover;
      background-position: center;
    }
  ".

Definition wrapSlide (bgImagePath overlayDivs innerHtml extraStyles : string) : string :=
  "<!DOCTYPE html>
<html lang=" +:+ dq +:+ "ru" +:+ dq +:+ ">
<head><meta charset=" +:+ dq +:+ "UTF-8" +:+ dq +:+ "><style>
" +:+ baseStyles +:+ "
" +:+ extraStyles +:+ "
</style></head>
<body style=" +:+ dq +:+ "background-image: url('" +:+ bgImagePath +:+ "');" +:+ dq +:+ ">
" +:+ overlayDivs +:+ "
" +:+ innerHtml +:+ "
</body></html>".

Definition overlay : string := "<div class=" +:+ dq +:+ "overlay" +:+ dq +:+ "></div>".

(** [for (let i = 0; i < n; i++) html += piece(i)] *)
Definition append_for (n : nat) (piece : nat -> string) : string :=
  fold_left (fun html i => html +:+ piece i) (seq 0 n) EmptyString.

(** [pieces.join(sep)] *)
Definition join (sep : string) (pieces : list string) : string := String.concat sep pieces.

(** Title slide - centered title, subtitle, date. *)
Definition titleSlide (bgImage : string) (s : Slide) : string :=
  let title := title s in
  let subtitle := subtitle s in
  let date := date s in
  let extra := "
    .overlay { position: absolute; top: 0; left: 0; width: 100%; height: 100%; background: rgba(0,0,0,0.45); }
    h1 { position: absolute; top: 140pt; left: 60pt; width: 600pt; text-align: center; font-size: 38pt; font-weight: 700; line-height: 1.2; }
    .subtitle { position: absolute; top: 200pt; left: 80pt; width: 560pt; text-align: center; font-size: 19pt; font-weight: 400; line-height: 1.4; color: rgba(255,255,255,0.9); }
    .date { position: absolute; top: 260pt; left: 80pt; width: 560pt; text-align: center; font-size: 13pt; color: rgba(255,255,255,0.7); }
  " in
  let subtitleHtml :=
    if truthy_string subtitle then "<p class=" +:+ dq +:+ "subtitle" +:+ dq +:+ ">" +:+ esc subtitle +:+ "</p>"
    else EmptyString in
  let dateHtml :=
    if truthy_string date then "<p class=" +:+ dq +:+ "date" +:+ dq +:+ ">" +:+ esc date +:+ "</p>"
    else EmptyString in
  let inner := "
<h1>" +:+ esc title +:+ "</h1>
" +:+ subtitleHtml +:+ "
" +:+ dateHtml +:+ "
  " in
  wrapSlide bgImage overlay inner extra.

(** Content slide - title + bullet list. *)
Definition contentSlide (bgImage : string) (s : Slide) : string :=
  let title := title s in
  let extra := "
    .overlay { position: absolute; top: 0; left: 0; width: 65%; height: 100%; background: rgba(0,0,0,0.45); }
    h2 { position: absolute; top: 36pt; left: 32pt; width: 410pt; font-size: 26pt; font-weight: 700; line-height: 1.2; }
    ul { position: absolute; top: 85pt; left: 32pt; width: 410pt; list-style: none; padding: 0; }
    li { font-size: 15pt; line-height: 1.5; margin-bottom: 10pt; padding-left: 20pt; position: relative; }
    li::before { content: " +:+ dq +:+ "\2022" +:+ dq +:+ "; position: absolute; left: 0; color: rgba(255,255,255,0.7); }
  " in
  let bulletHtml :=
    join "
" (map (fun b => "  <li>" +:+ esc (Some b) +:+ "</li>") (default [] (bullets s))) in
  let inner := "
<h2>" +:+ esc title +:+ "</h2>
<ul>
" +:+ bulletHtml +:+ "
</ul>
  " in
  wrapSlide bgImage overlay inner extra.

(** Data slide - metrics on the left, chart placeholder on the right. *)
Definition dataSlide (bgImage : string) (s : Slide) : string :=
  let title := title s in
  let extra := "
    .overlay { position: absolute; top: 0; left: 0; width: 42%; height: 100%; background: rgba(0,0,0,0.50); }
    h2 { position: absolute; top: 32pt; left: 28pt; width: 270pt; font-size: 24pt; font-weight: 700; line-height: 1.2; }
    .m0-val { position: absolute; top: 85pt; left: 28pt; width: 270pt; font-size: 28pt; font-weight: 700; }
    .m0-lbl { position: absolute; top: 115pt; left: 28pt; width: 270pt; font-size: 12pt; color: rgba(255,255,255,0.75); }
    .m1-val { position: absolute; top: 150pt; left: 28pt; width: 270pt; font-size: 28pt; font-weight: 700; }
    .m1-lbl { position: absolute; top: 180pt; left: 28pt; width: 270pt; font-size: 12pt; color: rgba(255,255,255,0.75); }
    .m2-val { position: absolute; top: 215pt; left: 28pt; width: 270pt; font-size: 28pt; font-weight: 700; }
    .m2-lbl { position: absolute; top: 245pt; left: 28pt; width: 270pt; font-size: 12pt; color: rgba(255,255,255,0.75); }
    .placeholder {
      position: absolute; top: 60pt; left: 320pt; width: 370pt; height: 285pt;
      background: rgba(128,128,128,0.3); border-radius: 8pt;
    }
  " in
  let m := default [] (metrics s) in
  let metricsHtml :=
    append_for (Nat.min (length m) 3) (fun i =>
      "<p class=" +:+ dq +:+ "m" +:+ show_nat i +:+ "-val" +:+ dq +:+ ">" +:+ esc (m !! i ≫= m_value) +:+ "</p>
" +:+
      "<p class=" +:+ dq +:+ "m" +:+ show_nat i +:+ "-lbl" +:+ dq +:+ ">" +:+ esc (m !! i ≫= m_label) +:+ "</p>
") in
  let inner := "
<h2>" +:+ esc title +:+ "</h2>
" +:+ metricsHtml +:+ "
<div class=" +:+ dq +:+ "placeholder" +:+ dq +:+ " id=" +:+ dq +:+ "chart-area" +:+ dq +:+ "></div>
  " in
  wrapSlide bgImage overlay inner extra.

(** Features slide - 3 cards on background. *)
Definition featuresSlide (bgImage : string) (s : Slide) : string :=
  let title := title s in
  let extra := "
    .overlay { position: absolute; top: 0; left: 0; width: 100%; height: 80pt; background: rgba(0,0,0,0.50); }
    h2 { position: absolute; top: 24pt; left: 32pt; width: 656pt; font-size: 24pt; font-weight: 700; text-align: center; line-height: 1.2; }
    .card0 { position: absolute; top: 110pt; left: 32pt; width: 200pt; height: 250pt; background: rgba(255,255,255,0.92); border-radius: 8pt; }
    .card1 { position: absolute; top: 110pt; left: 260pt; width: 200pt; height: 250pt; background: rgba(255,255,255,0.92); border-radius: 8pt; }
    .card2 { position: absolute; top: 110pt; left: 488pt; width: 200pt; height: 250pt; background: rgba(255,255,255,0.92); border-radius: 8pt; }
    .ct0 { position: absolute; top: 140pt; left: 48pt; width: 168pt; font-size: 14pt; font-weight: 700; color: #1a1a2e; text-align: center; }
    .cd0 { position: absolute; top: 170pt; left: 48pt; width: 168pt; font-size: 11pt; line-height: 1.4; color: rgba(26,26,46,0.8); text-align: center; }
    .ct1 { position: absolute; top: 140pt; left: 276pt; width: 168pt; font-size: 14pt; font-weight: 700; color: #1a1a2e; text-align: center; }
    .cd1 { position: absolute; top: 170pt; left: 276pt; width: 168pt; font-size: 11pt; line-height: 1.4; color: rgba(26,26,46,0.8); text-align: center; }
    .ct2 { position: absolute; top: 140pt; left: 504pt; width: 168pt; font-size: 14pt; font-weight: 700; color: #1a1a2e; text-align: center; }
    .cd2 { position: absolute; top: 170pt; left: 504pt; width: 168pt; font-size: 11pt; line-height: 1.4; color: rgba(26,26,46,0.8); text-align: center; }
  " in
  let f := take 3 (default [] (features s)) in
  let cardsHtml :=
    append_for (length f) (fun i => "<div class=" +:+ dq +:+ "card" +:+ show_nat i +:+ dq +:+ "></div>
") in
  let textsHtml :=
    append_for (length f) (fun i =>
      "<p class=" +:+ dq +:+ "ct" +:+ show_nat i +:+ dq +:+ ">" +:+ esc (f !! i ≫= f_title) +:+ "</p>
" +:+
      "<p class=" +:+ dq +:+ "cd" +:+ show_nat i +:+ dq +:+ ">" +:+ esc (f !! i ≫= f_description) +:+ "</p>
") in
  let inner := "
<h2>" +:+ esc title +:+ "</h2>
" +:+ cardsHtml +:+ "
" +:+ textsHtml +:+ "
  " in
  wrapSlide bgImage overlay inner extra.

(** Closing slide - centered heading + contact info. *)
Definition closingSlide (bgImage : string) (s : Slide) : string :=
  let heading := heading s in
  let lines := default [] (contactLines s) in
  let startTop := 220 in
  let linesCss :=
    join ("
    ") (imap (fun i _ => ".cl" +:+ show_nat i +:+ " { position: absolute; top: " +:+ show_nat (startTop + i * 28) +:+ "pt; left: 80pt; width: 560pt; text-align: center; font-size: 15pt; color: rgba(255,255,255,0.85); line-height: 1.5; }") lines) in
  let extra := "
    .overlay { position: absolute; top: 0; left: 0; width: 100%; height: 100%; background: rgba(0,0,0,0.45); }
    h1 { position: absolute; top: 150pt; left: 60pt; width: 600pt; text-align: center; font-size: 36pt; font-weight: 700; line-height: 1.2; }
    " +:+ linesCss +:+ "
  " in
  let linesHtml :=
    join "
" (imap (fun i l => "<p class=" +:+ dq +:+ "cl" +:+ show_nat i +:+ dq +:+ ">" +:+ esc (Some l) +:+ "</p>") lines) in
  let inner := "
<h1>" +:+ esc (if truthy_string heading then heading else Some "Thank you") +:+ "</h1>
" +:+ linesHtml +:+ "
  " in
  wrapSlide bgImage overlay inner extra.

End templates.

(** ** build-presentation.cjs, phase 1 *)

Module build.

Import whisk templates.

Definition TYPE_INSTRUCTIONS : gmap string string :=
  list_to_map
    [ ("title", "Central focal point, slightly darker edges, space for centered text");
      ("content", "Subtle, not distracting, darker left area for text overlay");
      ("data", "Clean, professional, muted tones, will not compete with charts");
      ("features", "Subtle pattern, even lighting for placing white cards on top");
      ("closing", "Warm, inviting, central focal point, space for centered text") ].

(** Build a full prompt for background generation. *)
Definition buildBgPrompt (styleDescription slideType : string) : string :=
  let instruction := default EmptyString (TYPE_INSTRUCTIONS !! slideType) in
  styleDescription +:+ ". " +:+ instruction
    +:+ ". No text, no logos, no people. Abstract background only. 16:9.".

Record Gradient := {
  g_from : string;
  g_via : string;
  g_to : string;
}.

Definition gradients_content : Gradient :=
  {| g_from := "#1a1a2e"; g_via := "#16213e"; g_to := "#0f3460" |}.

Definition gradients : gmap string Gradient :=
  list_to_map
    [ ("title", {| g_from := "#0f0c29"; g_via := "#302b63"; g_to := "#24243e" |});
      ("content", gradients_content);
      ("data", {| g_from := "#0d1117"; g_via := "#161b22"; g_to := "#21262d" |});
      ("features", {| g_from := "#1a1a2e"; g_via := "#1f2937"; g_to := "#111827" |});
      ("closing", {| g_from := "#2d1b69"; g_via := "#1e1145"; g_to := "#0f0c29" |}) ].

(** The SVG handed to Sharp.  The products [width * 0.7], ..., [height * 0.25]
    are exact in double precision (1344, 324, 432, 576, 756, 270). *)
Definition fallbackSvg (g : Gradient) : string :=
  let width := 1920 in
  let height := 1080 in
  "<svg width=" +:+ dq +:+ show_nat width +:+ dq +:+ " height=" +:+ dq +:+ show_nat height +:+ dq +:+ " xmlns=" +:+ dq +:+ "http://www.w3.org/2000/svg" +:+ dq +:+ ">
    <defs>
      <linearGradient id=" +:+ dq +:+ "g" +:+ dq +:+ " x1=" +:+ dq +:+ "0%" +:+ dq +:+ " y1=" +:+ dq +:+ "0%" +:+ dq +:+ " x2=" +:+ dq +:+ "100%" +:+ dq +:+ " y2=" +:+ dq +:+ "100%" +:+ dq +:+ ">
        <stop offset=" +:+ dq +:+ "0%" +:+ dq +:+ " stop-color=" +:+ dq +:+ g_from g +:+ dq +:+ "/>
        <stop offset=" +:+ dq +:+ "50%" +:+ dq +:+ " stop-color=" +:+ dq +:+ g_via g +:+ dq +:+ "/>
        <stop offset=" +:+ dq +:+ "100%" +:+ dq +:+ " stop-color=" +:+ dq +:+ g_to g +:+ dq +:+ "/>
      </linearGradient>
    </defs>
    <rect width=" +:+ dq +:+ "100%" +:+ dq +:+ " height=" +:+ dq +:+ "100%" +:+ dq +:+ " fill=" +:+ dq +:+ "url(#g)" +:+ dq +:+ "/>
    <circle cx=" +:+ dq +:+ show_nat (width * 7 / 10) +:+ dq +:+ " cy=" +:+ dq +:+ show_nat (height * 3 / 10) +:+ dq +:+ " r=" +:+ dq +:+ show_nat (height * 4 / 10) +:+ dq +:+ " fill=" +:+ dq +:+ g_via g +:+ dq +:+ " opacity=" +:+ dq +:+ "0.3" +:+ dq +:+ "/>
    <circle cx=" +:+ dq +:+ show_nat (width * 3 / 10) +:+ dq +:+ " cy=" +:+ dq +:+ show_nat (height * 7 / 10) +:+ dq +:+ " r=" +:+ dq +:+ show_nat (height * 25 / 100) +:+ dq +:+ " fill=" +:+ dq +:+ g_to g +:+ dq +:+ " opacity=" +:+ dq +:+ "0.2" +:+ dq +:+ "/>
  </svg>".

(** The file name of the background of slide [index]. *)
Definition bgFileName (index : nat) (slideType : string) : string :=
  "bg-" +:+ show_nat index +:+ "-" +:+ slideType +:+ ".png".

(** Generate gradient fallback backgrounds using Sharp (when Whisk unavailable). *)
Definition generateFallbackBackground (outputDir slideType : string) (index : nat) : M string :=
  let g := default gradients_content (gradients !! slideType) in
  let svg := fallbackSvg g in
  outPath <- pure_env (fun env => path_join env [outputDir; bgFileName index slideType]) ;;
  sharp_png_toFile svg outPath ;;;
  ret outPath.

Definition MEDIA_CATEGORY_STYLE := "MEDIA_CATEGORY_STYLE".

(** [slides[i].type] *)
Definition slide_type_at (slides : list Slide) (i : nat) : M string :=
  match slides !! i with
  | Some s => ret (type s)
  | None => throw "TypeError: Cannot read properties of undefined (reading 'type')"
  end.

(** [result.images[0]], as [saveBase64Image] needs it: a missing image makes
    [result.images[0]] or [Buffer.from] throw. *)
Definition first_image (result : Result) : M string :=
  match images result with
  | Some (img :: _) => ret img
  | _ => throw "TypeError: first argument must be of type string"
  end.

(** Phase 1a: upload user reference images (if provided). *)
Definition phase1a (token : string) (refPaths : option (list string)) : M (list StyleReference) :=
  foldM (fun userRefs refPath =>
           fileExists <- existsSync refPath ;;
           if negb fileExists then ret userRefs
           else
             base64 <- readFileSync_base64 refPath ;;
             analysis <- uploadAndAnalyze base64 MEDIA_CATEGORY_STYLE token ;;
             if success analysis then
               ret (userRefs ++ [ {| ref_category := MEDIA_CATEGORY_STYLE;
                                     ref_mediaId := mediaId analysis;
                                     ref_caption := caption analysis |} ])
             else ret userRefs)
        (default [] refPaths) [].

(** Phase 1b, the remote call: generate the first slide background as style
    anchor. *)
Definition phase1b (styleDescription token : string) (userRefs : list StyleReference)
    (firstType : string) : M Result :=
  let anchorPrompt := buildBgPrompt styleDescription firstType in
  if (0 <? length userRefs)%nat then generateWithReference anchorPrompt "16:9" token userRefs
  else generateImage anchorPrompt "16:9" token.

(** Phase 1c: upload the anchor as style reference for consistency. *)
Definition phase1c (token anchorBase64 : string) (userRefs : list StyleReference)
    : M (list StyleReference) :=
  anchorRef <- uploadAndAnalyze anchorBase64 MEDIA_CATEGORY_STYLE token ;;
  let consistencyRefs := userRefs in
  if success anchorRef then
    ret (consistencyRefs ++ [ {| ref_category := MEDIA_CATEGORY_STYLE;
                                 ref_mediaId := mediaId anchorRef;
                                 ref_caption := caption anchorRef |} ])
  else ret consistencyRefs.

(** Phase 1d, one iteration: the background of slide [i]. *)
Definition phase1d_step (outputDir styleDescription token : string)
    (consistencyRefs : list StyleReference) (slides : list Slide)
    (results : list string) (i : nat) : M (list string) :=
  slideType <- slide_type_at slides i ;;
  let prompt := buildBgPrompt styleDescription slideType in
  result <- (if (0 <? length consistencyRefs)%nat
             then generateWithReference prompt "16:9" token consistencyRefs
             else generateImage prompt "16:9" token) ;;
  if negb (success result) then
    fallbackPath <- generateFallbackBackground outputDir slideType i ;;
    ret (results ++ [fallbackPath])
  else
    outPath <- pure_env (fun env => path_join env [outputDir; bgFileName i slideType]) ;;
    img <- first_image result ;;
    saveBase64Image img outPath ;;;
    ret (results ++ [outPath]).

(** Phase 1d: generate the remaining backgrounds with consistency refs,
    [for (let i = 1; i < slides.length; i++)]. *)
Definition phase1d (outputDir styleDescription token : string)
    (consistencyRefs : list StyleReference) (slides : list Slide)
    (results : list string) : M (list string) :=
  foldM (phase1d_step outputDir styleDescription token consistencyRefs slides)
        (seq 1 (length slides - 1)) results.

(** Generate backgrounds via Whisk API with style consistency; [None] is the
    [null] that signals the caller to use the fallback. *)
Definition generateWhiskBackgrounds (outputDir styleDescription : string)
    (refPaths : option (list string)) (slides : list Slide) : M (option (list string)) :=
  tokenData <- loadToken ;;
  match tokenData with
  | None => ret None
  | Some tokenData =>
      let token := accessToken tokenData in
      let results := [] in
      userRefs <- phase1a token refPaths ;;
      firstType <- slide_type_at slides 0 ;;
      anchorResult <- phase1b styleDescription token userRefs firstType ;;
      if negb (success anchorResult) then ret None
      else
        anchorPath <- pure_env (fun env => path_join env [outputDir; bgFileName 0 firstType]) ;;
        anchorBase64 <- first_image anchorResult ;;
        saveBase64Image anchorBase64 anchorPath ;;;
        let results := results ++ [anchorPath] in
        consistencyRefs <- phase1c token anchorBase64 userRefs ;;
        results <- phase1d outputDir styleDescription token consistencyRefs slides results ;;
        ret (Some results)
  end.

Record Config := {
  name : string;
  style : string;
  refs : option (list string);
  slides : list Slide;
  outputBase : option string;
}.

(** [imagesDir] of a build. *)
Definition imagesDir (env : Env) (config : Config) : string :=
  let outputBase :=
    if truthy_string (outputBase config) then default EmptyString (outputBase config)
    else process_cwd env in
  let outputDir := path_join env [outputBase; "outputs"; name config] in
  path_join env [outputDir; "images"].

(** The fallback pass of the caller: a gradient for every slide,
    [for (let i = 0; i < slides.length; i++)]. *)
Definition fallbackPass (imagesDir : string) (slides : list Slide) : M (list string) :=
  foldM (fun backgrounds i =>
           slideType <- slide_type_at slides i ;;
           bgPath <- generateFallbackBackground imagesDir slideType i ;;
           ret (backgrounds ++ [bgPath]))
        (seq 0 (length slides)) [].

(** Main orchestrator, up to "Backgrounds ready": the directories are
    ensured and phase 1 yields [backgrounds]. *)
Definition buildPresentation_phase1 (config : Config) : M (list string) :=
  imagesDir <- pure_env (fun env => imagesDir env config) ;;
  mkdirSync imagesDir ;;;
  backgrounds <- generateWhiskBackgrounds imagesDir (style config) (refs config) (slides config) ;;
  match backgrounds with
  | Some backgrounds => ret backgrounds
  | None => fallbackPass imagesDir (slides config)
  end.

End build.

(** ** Concrete worlds *)

Module worlds.

Import whisk templates build.

Definition ok_body : Body :=
  {| imagePanels := [["aW1hZ2U="]];
     uploadMediaGenerationId := Some "media-1";
     candidates := ["a dark gradient"] |}.

Definition ok_response : Response :=
  {| resp_ok := true; resp_status := 200; resp_text := "OK"; resp_json := JsonData ok_body |}.


Definition good_token : TokenFile :=
  TokenParsed {| tj_accessToken := Some "ya29.token"; tj_expiresAt := Some 2000000000000%Z |}.

(** A world with a valid credential where every call succeeds. *)
Definition all_ok : Env :=
  {| path_join := String.concat "/";
     path_dirname := fun _ => "out/outputs/demo/images";
     process_cwd := "out";
     date_now := fun t => (1700000000000 + Z.of_nat t)%Z;
     random_seed := fun t => Z.of_nat (7 * t);
     fs_existsSync := fun _ _ => true;
     fs_readBase64 := fun _ _ => Some "cmVm";
     fs_write_ok := fun _ _ => true;
     token_file := fun _ => good_token;
     fetch := fun _ _ => FetchResolves ok_response |}.

Definition with_token (file : TokenFile) (env : Env) : Env :=
  {| path_join := path_join env; path_dirname := path_dirname env;
     process_cwd := process_cwd env; date_now := date_now env;
     random_seed := random_seed env; fs_existsSync := fs_existsSync env;
     fs_readBase64 := fs_readBase64 env; fs_write_ok := fs_write_ok env;
     token_file := fun _ => file; fetch := fetch env |}.

Definition with_fetch (f : nat -> Request -> FetchOutcome) (env : Env) : Env :=
  {| path_join := path_join env; path_dirname := path_dirname env;
     process_cwd := process_cwd env; date_now := date_now env;
     random_seed := random_seed env; fs_existsSync := fs_existsSync env;
     fs_readBase64 := fs_readBase64 env; fs_write_ok := fs_write_ok env;
     token_file := token_file env; fetch := f |}.

(** No credential file. *)
Definition no_token : Env := with_token TokenMissing all_ok.



(** A remote whose every call is rejected. *)
Definition offline : Env := with_fetch (fun _ _ => FetchRejects "ECONNREFUSED") all_ok.


(** A disk where no reference file exists and nothing can be read. *)
Definition nothing_exists : Env :=
  {| path_join := path_join all_ok; path_dirname := path_dirname all_ok;
     process_cwd := process_cwd all_ok; date_now := date_now all_ok;
     random_seed := random_seed all_ok; fs_existsSync := fun _ _ => false;
     fs_readBase64 := fun _ _ => None; fs_write_ok := fun _ _ => false;
     token_file := token_file all_ok; fetch := fetch all_ok |}.


Definition slide_of (t : string) : Slide :=
  {| type := t; title := Some "T"; subtitle := None; date := None; bullets := None;
     metrics := None; chartLabel := None; features := None; heading := None;
     contactLines := None |}.

Definition demo (ts : list string) (refs : option (list string)) : Config :=
  {| name := "demo"; style := "dark tech"; refs := refs;
     slides := map slide_of ts; outputBase := None |}.

Definition start : State := {| tick := 0; trace := [] |}.

End worlds.

(** ** What a run does: the requests sent and the results read *)

Module runs.

Import whisk templates build.

(** The state after [n] more interactions and the effects [evs]. *)
Definition after (n : nat) (evs : list Event) (st : State) : State :=
  {| tick := n + tick st; trace := trace st ++ evs |}.

Definition session_at (env : Env) (t : nat) : string := ";" +:+ show_Z (date_now env t).

Definition generate_request (env : Env) (t : nat) (prompt aspectRatio token : string) : Request :=
  {| req_url := ENDPOINTS_generate; req_bearer := token;
     req_payload :=
       GeneratePayload (session_at env t) MODELS_default (normalizeAspectRatio aspectRatio)
         prompt (random_seed env (S t)) |}.

Definition media_input (ref : StyleReference) : RecipeMediaInput :=
  {| rmi_caption := default EmptyString (ref_caption ref);
     rmi_mediaCategory := ref_category ref;
     rmi_mediaGenerationId := ref_mediaId ref |}.

Definition recipe_request (env : Env) (t : nat) (prompt aspectRatio token : string)
    (references : list StyleReference) : Request :=
  {| req_url := ENDPOINTS_recipe; req_bearer := token;
     req_payload :=
       RecipePayload (session_at env t)
         (if (length references =? 1)%nat then MODELS_refSingle else MODELS_refMultiple)
         (normalizeAspectRatio aspectRatio) prompt (map media_input references)
         (random_seed env (S t)) |}.

Definition upload_request (env : Env) (t : nat) (data category token : string) : Request :=
  {| req_url := ENDPOINTS_upload; req_bearer := token;
     req_payload := UploadPayload (session_at env t) category data |}.

Definition caption_request (env : Env) (t : nat) (data category token : string) : Request :=
  {| req_url := ENDPOINTS_caption; req_bearer := token;
     req_payload := CaptionPayload (session_at env t) category data |}.

(** The result a generation call makes of what the remote answered. *)
Definition images_of (out : FetchOutcome) : Result :=
  match out with
  | FetchRejects message => failed message
  | FetchResolves r =>
      if resp_ok r then
        match resp_json r with
        | JsonThrows message => failed message
        | JsonData data =>
            match imagePanels data with
            | (img :: imgs) :: _ => with_images (img :: imgs)
            | _ => failed "No image data in response"
            end
        end
      else failed ("HTTP " +:+ show_nat (resp_status r) +:+ ": " +:+ resp_text r)
  end.

Definition upload_of (out : FetchOutcome) : Result :=
  match out with
  | FetchRejects message => failed message
  | FetchResolves r =>
      if resp_ok r then
        match resp_json r with
        | JsonThrows message => failed message
        | JsonData data =>
            if truthy_string (uploadMediaGenerationId data)
            then {| success := true; images := None;
                    mediaId := uploadMediaGenerationId data; caption := None; error := None |}
            else failed "No Media ID returned"
        end
      else failed ("Upload HTTP " +:+ show_nat (resp_status r))
  end.

Definition caption_of (out : FetchOutcome) : Result :=
  match out with
  | FetchRejects message => failed message
  | FetchResolves r =>
      if resp_ok r then
        match resp_json r with
        | JsonThrows message => failed message
        | JsonData data => with_caption (hd EmptyString (candidates data))
        end
      else failed ("Caption HTTP " +:+ show_nat (resp_status r))
  end.

(** The image model named in the payload of a request. *)
Definition imageModel_of (req : Request) : option string :=
  match req_payload req with
  | GeneratePayload _ imageModel _ _ _ => Some imageModel
  | RecipePayload _ imageModel _ _ _ _ => Some imageModel
  | _ => None
  end.

(** The references a generation request carries. *)
Definition references_of (req : Request) : option (list RecipeMediaInput) :=
  match req_payload req with
  | RecipePayload _ _ _ _ inputs _ => Some inputs
  | _ => None
  end.

(** The credential file is rejected, in the words of the specification: the
    file is missing, unparseable, lacks [accessToken] or [expiresAt], or
    expires within 300000 ms of [now]. *)
Definition rejected_as_specified (file : TokenFile) (now : Z) : bool :=
  match file with
  | TokenMissing | TokenUnparseable => true
  | TokenParsed data =>
      match tj_accessToken data, tj_expiresAt data with
      | Some _, Some e => (e <? now + 300000)%Z
      | _, _ => true
      end
  end.

(** The credential file is rejected, as [loadToken] decides it: a field that
    is present but falsy (the empty string, the number 0) counts as absent. *)
Definition rejected (file : TokenFile) (now : Z) : bool :=
  match file with
  | TokenMissing | TokenUnparseable => true
  | TokenParsed data =>
      negb (truthy_string (tj_accessToken data))
      || negb (truthy_number (tj_expiresAt data))
      || match tj_expiresAt data with
         | Some e => (e <? now + 300000)%Z
         | None => true
         end
  end.

(** The path of the background of slide [i] in [outputDir]. *)
Definition bgPath (env : Env) (outputDir : string) (i : nat) (slideType : string) : string :=
  path_join env [outputDir; bgFileName i slideType].

(** The gradient of a slide type. *)
Definition palette (slideType : string) : Gradient :=
  default gradients_content (gradients !! slideType).

(** The fallback image of slide [i], as written by Sharp. *)
Definition fallback_event (env : Env) (outputDir : string) (i : nat) (slideType : string) : Event :=
  EvSharpPng (bgPath env outputDir i slideType) (fallbackSvg (palette slideType)).

(** The generation request for a slide of type [slideType] at tick [t], with
    the references [refs]. *)
Definition slide_request (env : Env) (t : nat) (styleDescription token : string)
    (refs : list StyleReference) (slideType : string) : Request :=
  if (0 <? length refs)%nat
  then recipe_request env t (buildBgPrompt styleDescription slideType) "16:9" token refs
  else generate_request env t (buildBgPrompt styleDescription slideType) "16:9" token.

Definition first_of (result : Result) : string :=
  match images result with
  | Some (img :: _) => img
  | _ => EmptyString
  end.

(** The effects of the iteration of phase 1d for slide [i], started at tick
    [t]: the request and its answer, then the remote image saved if the call
    succeeded, the fallback gradient if it failed. *)
Definition slide_events (env : Env) (outputDir styleDescription token : string)
    (refs : list StyleReference) (slides : list Slide) (i t : nat) : list Event :=
  let slideType := from_option type EmptyString (slides !! i) in
  let req := slide_request env t styleDescription token refs slideType in
  let out := fetch env (2 + t) req in
  [ EvFetch req out;
    if success (images_of out)
    then EvWriteFile (bgPath env outputDir i slideType) (first_of (images_of out))
    else fallback_event env outputDir i slideType ].

(** The style reference made of the anchor upload, given what the caption and
    the upload endpoints answered. *)
Definition anchor_reference (cout uout : FetchOutcome) : StyleReference :=
  {| ref_category := MEDIA_CATEGORY_STYLE;
     ref_mediaId := mediaId (upload_of uout);
     ref_caption := if success (caption_of cout) then caption (caption_of cout)
                    else Some EmptyString |}.

(** The references of the slides after the anchor. *)
Definition consistency_refs (userRefs : list StyleReference) (cout uout : FetchOutcome)
    : list StyleReference :=
  userRefs ++ (if success (upload_of uout) then [anchor_reference cout uout] else []).

(** The backgrounds of a deck in [outputDir], one per slide. *)
Definition aligned_backgrounds (env : Env) (outputDir : string) (slides : list Slide)
    : list string :=
  imap (fun i s => bgPath env outputDir i (type s)) slides.

(** The Sharp renderings of the fallback pass, one per slide. *)
Definition fallback_events (env : Env) (outputDir : string) (slides : list Slide)
    : list Event :=
  imap (fun i s => fallback_event env outputDir i (type s)) slides.

(** Local disk operations succeed: directories and files can be written, and
    a reference file that exists can be read. *)
Definition disk_ok (env : Env) : Prop :=
  (forall t p, fs_write_ok env t p = true)
  /\ (forall t p, fs_existsSync env t p = true -> is_Some (fs_readBase64 env (S t) p)).

(** The result the client makes of an answer, by the kind of request. *)
Definition result_of (req : Request) (out : FetchOutcome) : Result :=
  match req_payload req with
  | GeneratePayload _ _ _ _ _ | RecipePayload _ _ _ _ _ _ => images_of out
  | UploadPayload _ _ _ => upload_of out
  | CaptionPayload _ _ _ => caption_of out
  end.

(** Every remote call succeeds. *)
Definition remote_succeeds (env : Env) : Prop :=
  forall t req, success (result_of req (fetch env t req)) = true.

Definition is_fetch (ev : Event) : bool :=
  match ev with
  | EvFetch _ _ => true
  | _ => false
  end.

End runs.

(** ** Markup: what the statements about the templates speak of *)

Module markup.

Import whisk templates.

(** The number of occurrences of a character in a string. *)
Fixpoint occurrences (c : ascii) (s : string) : nat :=
  match s with
  | EmptyString => 0
  | String a s' => (if Ascii.eqb a c then 1 else 0) + occurrences c s'
  end.

(** The characters that delimit tags and attribute values. *)
Definition markup_chars : list ascii := ["<"%char; ">"%char; "034"%char].

(** The HTML entity of a character, in the words of the specification: each
    of the four special characters is replaced by its entity, any other
    character stands for itself. *)
Definition entity (a : ascii) : string :=
  if Ascii.eqb a "&" then "&amp;"
  else if Ascii.eqb a "<" then "&lt;"
  else if Ascii.eqb a ">" then "&gt;"
  else if Ascii.eqb a "034" then "&quot;"
  else String a EmptyString.

(** Escaping as one simultaneous substitution, character by character. *)
Fixpoint escape_chars (s : string) : string :=
  match s with
  | EmptyString => EmptyString
  | String a s' => entity a +:+ escape_chars s'
  end.

(** Two slide descriptors with the same layout: the same optional parts are
    shown and the lists have as many rendered items. *)
Definition same_shape (s1 s2 : Slide) : Prop :=
  truthy_string (subtitle s1) = truthy_string (subtitle s2)
  /\ truthy_string (date s1) = truthy_string (date s2)
  /\ length (default [] (bullets s1)) = length (default [] (bullets s2))
  /\ length (default [] (metrics s1)) `min` 3 = length (default [] (metrics s2)) `min` 3
  /\ length (take 3 (default [] (features s1))) = length (take 3 (default [] (features s2)))
  /\ length (default [] (contactLines s1)) = length (default [] (contactLines s2)).

End markup.

(** ** build-presentation.cjs, phase 2 and the command line *)

Module html_phase.

Import whisk templates build.




(** [outputDir] of a build. *)
Definition outputDir (env : Env) (config : Config) : string :=
  let outputBase :=
    if truthy_string (outputBase config) then default EmptyString (outputBase config)
    else process_cwd env in
  path_join env [outputBase; "outputs"; name config].





End html_phase.

Module cli.

Import whisk templates build.

(** [s.split(c)] for a one-character separator. *)
Fixpoint split_on (c : ascii) (s : string) : list string :=
  match s with
  | EmptyString => [EmptyString]
  | String a s' =>
      if Ascii.eqb a c then EmptyString :: split_on c s'
      else
        match split_on c s' with
        | piece :: pieces => String a piece :: pieces
        | [] => [String a EmptyString]
        end
  end.

(** The object [parsed] of the command line. *)
Record Parsed := {
  p_name : option string;
  p_style : option string;
  p_refs : option (list string);
  p_outputBase : option string;
}.

Definition no_flags : Parsed :=
  {| p_name := None; p_style := None; p_refs := None; p_outputBase := None |}.

(** The loop over [args]: a flag followed by a truthy argument takes it as
    its value and skips it; anything else is passed over. *)
Fixpoint parse_args (args : list string) (parsed : Parsed) : Parsed :=
  match args with
  | [] => parsed
  | arg :: rest =>
      match rest with
      | [] => parsed
      | value :: rest' =>
          if String.eqb arg "--name" && truthy_string (Some value) then
            parse_args rest'
              {| p_name := Some value; p_style := p_style parsed; p_refs := p_refs parsed;
                 p_outputBase := p_outputBase parsed |}
          else if String.eqb arg "--style" && truthy_string (Some value) then
            parse_args rest'
              {| p_name := p_name parsed; p_style := Some value; p_refs := p_refs parsed;
                 p_outputBase := p_outputBase parsed |}
          else if String.eqb arg "--refs" && truthy_string (Some value) then
            parse_args rest'
              {| p_name := p_name parsed; p_style := p_style parsed;
                 p_refs := Some (split_on "," value); p_outputBase := p_outputBase parsed |}
          else if String.eqb arg "--output" && truthy_string (Some value) then
            parse_args rest'
              {| p_name := p_name parsed; p_style := p_style parsed; p_refs := p_refs parsed;
                 p_outputBase := Some value |}
          else parse_args rest parsed
      end
  end.

(** The command line interface up to the call of [buildPresentation]: [None]
    is the usage message followed by [process.exit(1)].  The demo deck is a
    parameter, its date line being formatted by the locale of the host. *)
Definition cli_config (args : list string) (demoSlides : list Slide) : option Config :=
  let parsed := parse_args args no_flags in
  if negb (truthy_string (p_name parsed)) || negb (truthy_string (p_style parsed)) then None
  else
    Some {| name := default EmptyString (p_name parsed);
            style := default EmptyString (p_style parsed);
            refs := p_refs parsed;
            slides := demoSlides;
            outputBase := p_outputBase parsed |}.

End cli.

(** ** What the further statements speak of *)

Module coverage.

Import whisk templates build runs html_phase.

(** The paths of the files written, in order. *)
Definition written_paths (evs : list Event) : list string :=
  omap (fun ev => match ev with
                  | EvWriteFile path _ | EvSharpPng path _ => Some path
                  | EvFetch _ _ => None
                  end) evs.

(** The requests sent, in order. *)
Definition requests (evs : list Event) : list Request :=
  omap (fun ev => match ev with
                  | EvFetch req _ => Some req
                  | _ => None
                  end) evs.

Definition ENDPOINTS : list string :=
  [ENDPOINTS_generate; ENDPOINTS_recipe; ENDPOINTS_upload; ENDPOINTS_caption].

(** The aspect ratio named in a generation request. *)
Definition aspectRatio_of (req : Request) : option string :=
  match req_payload req with
  | GeneratePayload _ _ aspectRatio _ _ => Some aspectRatio
  | RecipePayload _ _ aspectRatio _ _ _ => Some aspectRatio
  | _ => None
  end.


(** A result of [uploadAndAnalyze] in one of its two shapes. *)
Definition analysis_shape (r : Result) : Prop :=
  if success r
  then truthy_string (mediaId r) = true /\ is_Some (caption r) /\ error r = None
  else mediaId r = None /\ caption r = None /\ is_Some (error r).

(** A style reference as the orchestrator builds it. *)
Definition reference_ok (ref : StyleReference) : Prop :=
  ref_category ref = MEDIA_CATEGORY_STYLE
  /\ truthy_string (ref_mediaId ref) = true
  /\ is_Some (ref_caption ref).

(** A request of a build with the access token [token]. *)
Definition request_ok (token : string) (req : Request) : Prop :=
  req_bearer req = token
  /\ req_url req ∈ ENDPOINTS
  /\ (aspectRatio_of req = None \/ aspectRatio_of req = Some "IMAGE_ASPECT_RATIO_LANDSCAPE").



(** A string without the character [c]. *)
Definition free_of (c : ascii) (s : string) : Prop := markup.occurrences c s = 0.

End coverage.

(** * Properties *)

Import whisk templates build runs markup html_phase cli coverage.

Ltac run_monad :=
  cbv [bind ret throw try_catch ask emit pure_env Date_now makeSessionId makeSeed
       do_fetch response_json existsSync mkdirSync writeFileSync readFileSync_base64
       sharp_png_toFile after session_at]; cbn [tick trace fst snd].

Lemma bind_ok {A B} (c : M A) (k : A -> M B) env st a st' :
  c env st = (Ok a, st') -> bind c k env st = k a env st'.
Proof. unfold bind. by intros ->. Qed.

Lemma bind_throw {A B} (c : M A) (k : A -> M B) env st e st' :
  c env st = (Throw e, st') -> bind c k env st = (Throw e, st').
Proof. unfold bind. by intros ->. Qed.

Lemma after_after n m evs evs' st :
  after n evs (after m evs' st) = after (n + m) (evs' ++ evs) st.
Proof.
  unfold after; cbn [tick trace]. f_equal; [lia | by rewrite app_assoc].
Qed.

Lemma after_0_nil st : after 0 [] st = st.
Proof. destruct st; unfold after; cbn. by rewrite app_nil_r. Qed.

Lemma generateImage_run prompt aspectRatio token env st :
  generateImage prompt aspectRatio token env st =
    let req := generate_request env (tick st) prompt aspectRatio token in
    let out := fetch env (2 + tick st) req in
    (Ok (images_of out), after 3 [EvFetch req out] st).
Proof.
  unfold generateImage, read_images, generate_request, images_of. run_monad.
  destruct (fetch env _ _) as [message|r]; [done|].
  run_monad. destruct (resp_ok r); cbn [negb]; [|done].
  run_monad. destruct (resp_json r) as [data|message]; [|done].
  destruct (imagePanels data) as [|[|img imgs] panels]; done.
Qed.

Lemma generateWithReference_run prompt aspectRatio token references env st :
  generateWithReference prompt aspectRatio token references env st =
    let req := recipe_request env (tick st) prompt aspectRatio token references in
    let out := fetch env (2 + tick st) req in
    (Ok (images_of out), after 3 [EvFetch req out] st).
Proof.
  unfold generateWithReference, read_images, recipe_request, images_of, media_input. run_monad.
  destruct (fetch env _ _) as [message|r]; [done|].
  run_monad. destruct (resp_ok r); cbn [negb]; [|done].
  run_monad. destruct (resp_json r) as [data|message]; [|done].
  destruct (imagePanels data) as [|[|img imgs] panels]; done.
Qed.

Lemma uploadReference_run data category token env st :
  uploadReference data category token env st =
    let req := upload_request env (tick st) data category token in
    let out := fetch env (1 + tick st) req in
    (Ok (upload_of out), after 2 [EvFetch req out] st).
Proof.
  unfold uploadReference, upload_request, upload_of. run_monad.
  destruct (fetch env _ _) as [message|r]; [done|].
  run_monad. destruct (resp_ok r); cbn [negb]; [|done].
  run_monad. destruct (resp_json r) as [body|message]; [|done].
  by destruct (truthy_string _).
Qed.

Lemma getCaptionForImage_run data category token env st :
  getCaptionForImage data category token env st =
    let req := caption_request env (tick st) data category token in
    let out := fetch env (1 + tick st) req in
    (Ok (caption_of out), after 2 [EvFetch req out] st).
Proof.
  unfold getCaptionForImage, caption_request, caption_of. run_monad.
  destruct (fetch env _ _) as [message|r]; [done|].
  run_monad. destruct (resp_ok r); cbn [negb]; [|done].
  run_monad. destruct (resp_json r) as [body|message]; [|done].
  by destruct (candidates body).
Qed.

(** ** The credential store reader *)

Lemma loadToken_run env st :
  let file := token_file env (tick st) in
  let now := date_now env (S (tick st)) in
  exists st',
    loadToken env st =
      (Ok (if rejected file now then None
           else match file with
                | TokenParsed {| tj_accessToken := Some a; tj_expiresAt := Some e |} =>
                    Some {| accessToken := a; expiresAt := e |}
                | _ => None
                end), st')
    /\ trace st' = trace st.
Proof.
  unfold loadToken, rejected. run_monad.
  destruct (token_file env (tick st)) as [| |[[a|] [e|]]]; cbn [tj_accessToken tj_expiresAt];
    try (eexists; split; [reflexivity|done]).
  - destruct (truthy_string (Some a)), (truthy_number (Some e)); cbn [negb orb];
      try (eexists; split; [reflexivity|done]).
    run_monad. destruct (e <? _)%Z; eexists; (split; [reflexivity|done]).
  - destruct (truthy_string (Some a)); cbn; eexists; (split; [reflexivity|done]).
Qed.

(** C7, as amended: [loadToken] never throws; it returns [null] exactly when
    the credential file is missing, unparseable, has a missing or falsy
    [accessToken] or [expiresAt], or [expiresAt < now + 300000]; otherwise it
    returns the pair read from the file. *)
Theorem loadToken_null_iff_rejected env st :
  let file := token_file env (tick st) in
  let now := date_now env (S (tick st)) in
  (fst (loadToken env st) = Ok None <-> rejected file now = true)
  /\ (rejected file now = false ->
      exists a e,
        file = TokenParsed {| tj_accessToken := Some a; tj_expiresAt := Some e |}
        /\ fst (loadToken env st) = Ok (Some {| accessToken := a; expiresAt := e |})).
Proof.
  intros file now. destruct (loadToken_run env st) as (st' & Hrun & _).
  fold file now in Hrun. rewrite Hrun. cbn [fst].
  destruct (rejected file now) eqn:Hrej.
  - split; [done|]. done.
  - assert (exists a e, file = TokenParsed {| tj_accessToken := Some a; tj_expiresAt := Some e |})
      as (a & e & Hfile).
    { unfold rejected in Hrej. destruct file as [| |[[a|] [e|]]]; try done.
      - by exists a, e.
      - cbn in Hrej. by rewrite orb_true_r in Hrej. }
    rewrite Hfile. split; [split; done|]. intros _. by exists a, e.
Qed.

Lemma loadToken_null_iff_rejected_witness :
  fst (loadToken worlds.all_ok worlds.start)
  = Ok (Some {| accessToken := "ya29.token"; expiresAt := 2000000000000 |}).
Proof.
  destruct (loadToken_null_iff_rejected worlds.all_ok worlds.start) as [_ H].
  destruct (H eq_refl) as (a & e & Hfile & Hrun).
  injection Hfile as <- <-. exact Hrun.
Defined.

(** C7 as stated fails: a file whose [accessToken] is present but empty is
    parseable, has both fields and is far from expiry, yet [loadToken]
    returns [null]. *)
Lemma loadToken_empty_accessToken_rejected :
  let file := TokenParsed {| tj_accessToken := Some EmptyString;
                             tj_expiresAt := Some 2000000000000%Z |} in
  let env := worlds.with_token file worlds.all_ok in
  ~ (fst (loadToken env worlds.start) = Ok None
     <-> rejected_as_specified (token_file env 0) (date_now env 1) = true).
Proof.
  intros file env [H _]. by specialize (H eq_refl).
Qed.

(** ** The image generation client *)

(** C5: every call to [generateWithReference] sends one request, to the
    recipe endpoint, whose image model is decided by the number of
    references alone: [GEM_PIX] for exactly one, [R2I] for two or more. *)
Theorem generateWithReference_model prompt aspectRatio token references env st :
  exists result req out,
    generateWithReference prompt aspectRatio token references env st
      = (Ok result, after 3 [EvFetch req out] st)
    /\ req_url req = ENDPOINTS_recipe
    /\ (length references = 1 -> imageModel_of req = Some "GEM_PIX")
    /\ (2 <= length references -> imageModel_of req = Some "R2I").
Proof.
  rewrite generateWithReference_run. cbv zeta.
  eexists _, _, _. split; [reflexivity|]. split; [done|].
  unfold imageModel_of, recipe_request; cbn [req_payload].
  split; intros Hlen.
  - by rewrite Hlen.
  - destruct (Nat.eqb_spec (length references) 1); [lia|done].
Qed.

Lemma generateWithReference_model_witness :
  let one := [ {| ref_category := "MEDIA_CATEGORY_STYLE"; ref_mediaId := Some "m1";
                  ref_caption := Some "c1" |} ] in
  (exists result req out,
     generateWithReference "p" "16:9" "t" one worlds.all_ok worlds.start
       = (Ok result, after 3 [EvFetch req out] worlds.start)
     /\ imageModel_of req = Some "GEM_PIX")
  /\ (exists result req out,
        generateWithReference "p" "16:9" "t" (one ++ one) worlds.all_ok worlds.start
          = (Ok result, after 3 [EvFetch req out] worlds.start)
        /\ imageModel_of req = Some "R2I").
Proof.
  intros one. split.
  - destruct (generateWithReference_model "p" "16:9" "t" one worlds.all_ok worlds.start)
      as (result & req & out & Hrun & _ & H1 & _).
    exists result, req, out. split; [exact Hrun|]. apply H1. reflexivity.
  - destruct (generateWithReference_model "p" "16:9" "t" (one ++ one) worlds.all_ok worlds.start)
      as (result & req & out & Hrun & _ & _ & H2).
    exists result, req, out. split; [exact Hrun|]. apply H2. cbn. lia.
Defined.

Lemma uploadAndAnalyze_run data category token env st :
  uploadAndAnalyze data category token env st =
    let creq := caption_request env (tick st) data category token in
    let cout := fetch env (1 + tick st) creq in
    let ureq := upload_request env (2 + tick st) data category token in
    let uout := fetch env (3 + tick st) ureq in
    let captionResult := caption_of cout in
    let uploadResult := upload_of uout in
    (Ok (if success uploadResult then
           {| success := true; images := None; mediaId := mediaId uploadResult;
              caption := if success captionResult then caption captionResult
                         else Some EmptyString;
              error := None |}
         else {| success := false; images := None; mediaId := None; caption := None;
                 error := error uploadResult |}),
     after 4 [EvFetch creq cout; EvFetch ureq uout] st).
Proof.
  unfold uploadAndAnalyze, bind at 1. rewrite getCaptionForImage_run. cbv zeta.
  unfold bind at 1. rewrite uploadReference_run. cbv zeta.
  rewrite after_after. cbn [tick after Nat.add app].
  by destruct (success (upload_of _)).
Qed.

(** C6: [uploadAndAnalyze] succeeds exactly when its upload half does.  On
    upload success it returns the media id with the caption of the caption
    half, or the empty string if that half failed; on upload failure it
    returns the upload error, whatever the caption half did. *)
Theorem uploadAndAnalyze_success_iff_upload data category token env st :
  exists captionResult uploadResult st1 st2 result,
    getCaptionForImage data category token env st = (Ok captionResult, st1)
    /\ uploadReference data category token env st1 = (Ok uploadResult, st2)
    /\ uploadAndAnalyze data category token env st = (Ok result, st2)
    /\ success result = success uploadResult
    /\ (success uploadResult = true ->
        result = {| success := true; images := None; mediaId := mediaId uploadResult;
                    caption := if success captionResult then caption captionResult
                               else Some EmptyString;
                    error := None |})
    /\ (success uploadResult = false ->
        result = {| success := false; images := None; mediaId := None; caption := None;
                    error := error uploadResult |}).
Proof.
  rewrite uploadAndAnalyze_run, getCaptionForImage_run. cbv zeta.
  eexists _, _, _, _, _. split; [reflexivity|].
  rewrite uploadReference_run. cbv zeta. rewrite after_after.
  cbn [tick after Nat.add app].
  split; [reflexivity|]. split; [reflexivity|].
  destruct (success (upload_of _)); done.
Qed.

Lemma uploadAndAnalyze_success_iff_upload_witness :
  exists st2,
    uploadAndAnalyze "aW1hZ2U=" "MEDIA_CATEGORY_STYLE" "t" worlds.all_ok worlds.start
    = (Ok {| success := true; images := None; mediaId := Some "media-1";
             caption := Some "a dark gradient"; error := None |}, st2).
Proof.
  destruct (uploadAndAnalyze_success_iff_upload "aW1hZ2U=" "MEDIA_CATEGORY_STYLE" "t"
              worlds.all_ok worlds.start)
    as (captionResult & uploadResult & st1 & st2 & result & Hc & Hu & Hrun & _ & Hok & _).
  exists st2. rewrite Hrun. f_equal. f_equal.
  vm_compute in Hc. injection Hc as <- <-.
  vm_compute in Hu. injection Hu as <- <-.
  apply Hok. reflexivity.
Defined.

(** ** The fallback image generator *)

Lemma generateFallbackBackground_run outputDir slideType index env st :
  generateFallbackBackground outputDir slideType index env st =
    if fs_write_ok env (tick st) (bgPath env outputDir index slideType)
    then (Ok (bgPath env outputDir index slideType),
          after 1 [fallback_event env outputDir index slideType] st)
    else (Throw "sharp: write", after 1 [] st).
Proof.
  unfold generateFallbackBackground, fallback_event, bgPath, palette. run_monad.
  destruct (fs_write_ok env _ _); [done|].
  unfold after. cbn. by rewrite app_nil_r.
Qed.




(** ** The style-consistency orchestrator *)

Lemma trace_after n evs st : trace (after n evs st) = trace st ++ evs.
Proof. reflexivity. Qed.

Lemma success_first_image out :
  success (images_of out) = true ->
  first_image (images_of out) = ret (first_of (images_of out)).
Proof.
  unfold images_of, first_image, first_of.
  destruct out as [message|r]; [done|].
  destruct (resp_ok r); [|done].
  destruct (resp_json r) as [data|message]; [|done].
  by destruct (imagePanels data) as [|[|img imgs] panels].
Qed.

Lemma slide_generation_run styleDescription token refs slideType env st :
  (if (0 <? length refs)%nat
   then generateWithReference (buildBgPrompt styleDescription slideType) "16:9" token refs
   else generateImage (buildBgPrompt styleDescription slideType) "16:9" token) env st =
    let req := slide_request env (tick st) styleDescription token refs slideType in
    let out := fetch env (2 + tick st) req in
    (Ok (images_of out), after 3 [EvFetch req out] st).
Proof.
  unfold slide_request. destruct (0 <? length refs)%nat.
  - apply generateWithReference_run.
  - apply generateImage_run.
Qed.

Lemma phase1b_run styleDescription token userRefs firstType env st :
  phase1b styleDescription token userRefs firstType env st =
    let req := slide_request env (tick st) styleDescription token userRefs firstType in
    let out := fetch env (2 + tick st) req in
    (Ok (images_of out), after 3 [EvFetch req out] st).
Proof. apply slide_generation_run. Qed.

Lemma phase1c_run token anchorBase64 userRefs env st :
  phase1c token anchorBase64 userRefs env st =
    let creq := caption_request env (tick st) anchorBase64 MEDIA_CATEGORY_STYLE token in
    let cout := fetch env (1 + tick st) creq in
    let ureq := upload_request env (2 + tick st) anchorBase64 MEDIA_CATEGORY_STYLE token in
    let uout := fetch env (3 + tick st) ureq in
    (Ok (consistency_refs userRefs cout uout),
     after 4 [EvFetch creq cout; EvFetch ureq uout] st).
Proof.
  unfold phase1c. erewrite bind_ok by apply uploadAndAnalyze_run. cbv zeta.
  unfold consistency_refs, anchor_reference.
  destruct (success (upload_of _)); cbn [success mediaId caption]; unfold ret.
  - reflexivity.
  - by rewrite app_nil_r.
Qed.

Lemma loadToken_total env st :
  exists tokenData st', loadToken env st = (Ok tokenData, st') /\ trace st' = trace st.
Proof. destruct (loadToken_run env st) as (st' & Hrun & Htrace). by eexists _, _. Qed.

Lemma loadToken_trace env st tokenData st' :
  loadToken env st = (tokenData, st') -> trace st' = trace st.
Proof.
  destruct (loadToken_total env st) as (tokenData' & st'' & -> & Htrace).
  by intros [= _ <-].
Qed.

Lemma generateWhiskBackgrounds_no_token outputDir styleDescription refPaths slides env st st1 :
  loadToken env st = (Ok None, st1) ->
  generateWhiskBackgrounds outputDir styleDescription refPaths slides env st = (Ok None, st1).
Proof. intros Hload. unfold generateWhiskBackgrounds. by erewrite bind_ok by apply Hload. Qed.

Lemma generateWhiskBackgrounds_anchor_failed
    outputDir styleDescription refPaths slides env st tokenData st1 userRefs st2 s0 :
  loadToken env st = (Ok (Some tokenData), st1) ->
  phase1a (accessToken tokenData) refPaths env st1 = (Ok userRefs, st2) ->
  slides !! 0 = Some s0 ->
  let req := slide_request env (tick st2) styleDescription (accessToken tokenData) userRefs
               (type s0) in
  let out := fetch env (2 + tick st2) req in
  success (images_of out) = false ->
  generateWhiskBackgrounds outputDir styleDescription refPaths slides env st
    = (Ok None, after 3 [EvFetch req out] st2).
Proof.
  intros Hload Hrefs Hs0 req out Hfailed. unfold generateWhiskBackgrounds.
  erewrite bind_ok by apply Hload. cbv beta iota.
  erewrite bind_ok by apply Hrefs.
  erewrite bind_ok by (unfold slide_type_at; rewrite Hs0; reflexivity).
  erewrite bind_ok by apply phase1b_run.
  cbv zeta. fold req out. by rewrite Hfailed.
Qed.

(** Indices and slides. *)

Lemma later_indices_valid {A} (l : list A) :
  Forall (fun i => is_Some (l !! i)) (seq 1 (length l - 1)).
Proof.
  apply Forall_forall. intros i Hi%elem_of_seq. apply lookup_lt_is_Some. lia.
Qed.

Lemma all_indices_valid {A} (l : list A) :
  Forall (fun i => is_Some (l !! i)) (seq 0 (length l)).
Proof.
  apply Forall_forall. intros i Hi%elem_of_seq. apply lookup_lt_is_Some. lia.
Qed.

Lemma map_seq_imap_type {B} (f : nat -> string -> B) (slides : list Slide) :
  map (fun i => f i (from_option type EmptyString (slides !! i))) (seq 0 (length slides))
  = imap (fun i s => f i (type s)) slides.
Proof.
  apply list_eq. intros i. rewrite list_lookup_fmap, list_lookup_imap.
  destruct (slides !! i) as [s|] eqn:Hi.
  - rewrite lookup_seq_lt by (by eapply lookup_lt_Some). cbn. by rewrite Hi.
  - rewrite lookup_seq_ge by (by apply lookup_ge_None). done.
Qed.

Lemma aligned_backgrounds_cons env outputDir s0 slides :
  aligned_backgrounds env outputDir (s0 :: slides) =
    [bgPath env outputDir 0 (type s0)]
    ++ map (fun i => bgPath env outputDir i
                       (from_option type EmptyString ((s0 :: slides) !! i)))
         (seq 1 (length slides)).
Proof.
  unfold aligned_backgrounds.
  rewrite <- (map_seq_imap_type (fun i t => bgPath env outputDir i t)).
  reflexivity.
Qed.


Lemma length_aligned_backgrounds env dir slides :
  length (aligned_backgrounds env dir slides) = length slides.
Proof. apply length_imap. Qed.

(** What the phases do in a world whose local disk works. *)
Section working_disk.

Context (env : Env) (Hdisk : disk_ok env).

Lemma saveBase64Image_run img filePath st :
  exists n,
    saveBase64Image img filePath env st = (Ok tt, after n [EvWriteFile filePath img] st).
Proof.
  destruct Hdisk as [Hwrite _]. unfold saveBase64Image. run_monad.
  destruct (fs_existsSync env _ _); run_monad; rewrite !Hwrite; run_monad.
  - by exists 2.
  - by exists 3.
Qed.

Lemma fallback_run outputDir slideType index st :
  generateFallbackBackground outputDir slideType index env st =
    (Ok (bgPath env outputDir index slideType),
     after 1 [fallback_event env outputDir index slideType] st).
Proof.
  rewrite generateFallbackBackground_run. destruct Hdisk as [Hwrite _]. by rewrite Hwrite.
Qed.

Lemma phase1d_step_run outputDir styleDescription token refs slides results i s st :
  slides !! i = Some s ->
  exists n,
    phase1d_step outputDir styleDescription token refs slides results i env st =
      (Ok (results ++ [bgPath env outputDir i (type s)]),
       after n (slide_events env outputDir styleDescription token refs slides i (tick st)) st).
Proof.
  intros Hs. unfold phase1d_step, slide_events. rewrite Hs. cbn [from_option].
  erewrite bind_ok by (unfold slide_type_at; rewrite Hs; reflexivity).
  erewrite bind_ok by apply slide_generation_run.
  destruct (success (images_of _)) eqn:Hsuccess; cbn [negb].
  - erewrite bind_ok by reflexivity.
    erewrite bind_ok by (rewrite (success_first_image _ Hsuccess); reflexivity).
    edestruct saveBase64Image_run as [n Hsave].
    erewrite bind_ok by apply Hsave.
    exists (n + 3). unfold ret, bgPath. by rewrite after_after.
  - erewrite bind_ok by apply fallback_run.
    exists (1 + 3). unfold ret. by rewrite after_after.
Qed.

(** The loop of phase 1d over any list of valid indices. *)
Lemma phase1d_loop outputDir styleDescription token refs slides :
  forall (indices : list nat) results st,
    Forall (fun i => is_Some (slides !! i)) indices ->
    exists ticks st',
      foldM (phase1d_step outputDir styleDescription token refs slides) indices results env st
        = (Ok (results
               ++ map (fun i => bgPath env outputDir i
                                  (from_option type EmptyString (slides !! i)))
                    indices), st')
      /\ length ticks = length indices
      /\ trace st' = trace st
           ++ concat (zip_with (slide_events env outputDir styleDescription token refs slides)
                        indices ticks).
Proof.
  induction indices as [|i indices IH]; intros results st Hvalid.
  - exists [], st. cbn. by rewrite !app_nil_r.
  - apply Forall_cons in Hvalid as [[s Hs] Hvalid].
    destruct (phase1d_step_run outputDir styleDescription token refs slides results i s st Hs)
      as [n Hstep].
    cbn [foldM]. unfold bind at 1. rewrite Hstep.
    destruct (IH (results ++ [bgPath env outputDir i (type s)]) (after n
                (slide_events env outputDir styleDescription token refs slides i (tick st)) st)
                Hvalid) as (ticks & st' & -> & Hlen & Htrace).
    exists (tick st :: ticks), st'. split; [|split].
    + cbn [map]. rewrite Hs. cbn [from_option]. by rewrite <- app_assoc.
    + cbn. by rewrite Hlen.
    + rewrite Htrace, trace_after. cbn [zip_with concat]. by rewrite <- app_assoc.
Qed.

(** The fallback pass of the caller over any list of valid indices. *)
Lemma fallback_loop dir slides :
  forall (indices : list nat) backgrounds st,
    Forall (fun i => is_Some (slides !! i)) indices ->
    foldM (fun backgrounds i =>
             slideType <- slide_type_at slides i ;;
             bgPath <- generateFallbackBackground dir slideType i ;;
             ret (backgrounds ++ [bgPath])) indices backgrounds env st
    = (Ok (backgrounds
           ++ map (fun i => bgPath env dir i (from_option type EmptyString (slides !! i)))
                indices),
       after (length indices)
         (map (fun i => fallback_event env dir i (from_option type EmptyString (slides !! i)))
            indices) st).
Proof.
  induction indices as [|i indices IH]; intros backgrounds st Hvalid.
  - cbn. unfold ret. by rewrite after_0_nil, app_nil_r.
  - apply Forall_cons in Hvalid as [[s Hs] Hvalid].
    cbn [foldM]. unfold bind at 1. unfold bind at 1, slide_type_at. rewrite Hs.
    unfold ret at 1. unfold bind at 1. rewrite fallback_run.
    unfold ret at 1. rewrite IH by done. rewrite after_after.
    cbn [map length]. rewrite Hs. cbn [from_option]. f_equal.
    + by rewrite <- app_assoc.
    + f_equal. lia.
Qed.

Lemma fallbackPass_run dir slides st :
  fallbackPass dir slides env st =
    (Ok (aligned_backgrounds env dir slides),
     after (length slides) (fallback_events env dir slides) st).
Proof.
  unfold fallbackPass. rewrite fallback_loop by apply all_indices_valid.
  rewrite length_seq. cbn [app]. unfold aligned_backgrounds, fallback_events.
  by rewrite (map_seq_imap_type (fun i t => bgPath env dir i t)),
    (map_seq_imap_type (fun i t => fallback_event env dir i t)).
Qed.

(** Phase 1a never throws: a reference file that exists can be read, and
    the client captures every failure of the remote. *)
Lemma phase1a_total token (refPaths : option (list string)) st :
  exists userRefs st', phase1a token refPaths env st = (Ok userRefs, st').
Proof.
  unfold phase1a.
  match goal with
  | |- context [foldM ?step _ _] =>
      enough (forall paths userRefs st,
                exists userRefs' st', foldM step paths userRefs env st = (Ok userRefs', st'))
        as Hfold by apply Hfold
  end.
  clear st. destruct Hdisk as [_ Hread].
  induction paths as [|refPath paths IH]; intros userRefs st.
  - by eexists _, _.
  - cbn [foldM].
    match goal with
    | |- context [bind ?step _] =>
        assert (exists userRefs1 st1, step env st = (Ok userRefs1, st1))
          as (userRefs1 & st1 & Hstep)
    end.
    { destruct (fs_existsSync env (tick st) refPath) eqn:Hexists.
      - destruct (Hread _ _ Hexists) as [base64 Hbase64].
        erewrite bind_ok by (unfold existsSync, ask; rewrite Hexists; reflexivity).
        cbn [negb].
        erewrite bind_ok
          by (unfold readFileSync_base64, bind, ask; cbn [tick]; rewrite Hbase64;
              reflexivity).
        erewrite bind_ok by apply uploadAndAnalyze_run.
        cbv zeta. destruct (success _); by eexists _, _.
      - erewrite bind_ok by (unfold existsSync, ask; rewrite Hexists; reflexivity).
        by eexists _, _. }
    erewrite bind_ok by apply Hstep. apply IH.
Qed.

Lemma generateWhiskBackgrounds_anchor_ok
    outputDir styleDescription refPaths slides st tokenData st1 userRefs st2 s0 :
  loadToken env st = (Ok (Some tokenData), st1) ->
  phase1a (accessToken tokenData) refPaths env st1 = (Ok userRefs, st2) ->
  slides !! 0 = Some s0 ->
  let token := accessToken tokenData in
  let req := slide_request env (tick st2) styleDescription token userRefs (type s0) in
  let out := fetch env (2 + tick st2) req in
  success (images_of out) = true ->
  exists t ticks st',
    let anchorBase64 := first_of (images_of out) in
    let creq := caption_request env t anchorBase64 MEDIA_CATEGORY_STYLE token in
    let cout := fetch env (1 + t) creq in
    let ureq := upload_request env (2 + t) anchorBase64 MEDIA_CATEGORY_STYLE token in
    let uout := fetch env (3 + t) ureq in
    generateWhiskBackgrounds outputDir styleDescription refPaths slides env st
      = (Ok (Some (aligned_backgrounds env outputDir slides)), st')
    /\ length ticks = length slides - 1
    /\ trace st' = trace st2
         ++ [EvFetch req out; EvWriteFile (bgPath env outputDir 0 (type s0)) anchorBase64;
             EvFetch creq cout; EvFetch ureq uout]
         ++ concat (zip_with
                      (slide_events env outputDir styleDescription token
                         (consistency_refs userRefs cout uout) slides)
                      (seq 1 (length slides - 1)) ticks).
Proof.
  intros Hload Hrefs Hs0 token req out Hok.
  destruct slides as [|s0' slides']; [done|]. injection Hs0 as ->.
  edestruct (saveBase64Image_run (first_of (images_of out))
               (bgPath env outputDir 0 (type s0)) (after 3 [EvFetch req out] st2))
    as [n Hsave].
  set (st3 := after n [EvWriteFile (bgPath env outputDir 0 (type s0))
                         (first_of (images_of out))]
                (after 3 [EvFetch req out] st2)) in Hsave.
  set (anchorBase64 := first_of (images_of out)) in *.
  set (creq := caption_request env (tick st3) anchorBase64 MEDIA_CATEGORY_STYLE token).
  set (cout := fetch env (1 + tick st3) creq).
  set (ureq := upload_request env (2 + tick st3) anchorBase64 MEDIA_CATEGORY_STYLE token).
  set (uout := fetch env (3 + tick st3) ureq).
  edestruct (phase1d_loop outputDir styleDescription token
               (consistency_refs userRefs cout uout) (s0 :: slides')
               (seq 1 (length (s0 :: slides') - 1)) [bgPath env outputDir 0 (type s0)]
               (after 4 [EvFetch creq cout; EvFetch ureq uout] st3))
    as (ticks & st' & Hloop & Hlen & Htrace); [apply later_indices_valid|].
  exists (tick st3), ticks, st'. cbv zeta. fold creq cout ureq uout.
  split; [|split].
  - unfold generateWhiskBackgrounds.
    erewrite bind_ok by apply Hload. cbv beta iota.
    erewrite bind_ok by apply Hrefs.
    erewrite bind_ok by reflexivity.
    erewrite bind_ok by apply phase1b_run.
    cbv zeta. fold token req out. rewrite Hok. cbn [negb].
    erewrite bind_ok by reflexivity.
    erewrite bind_ok by (rewrite (success_first_image _ Hok); reflexivity).
    erewrite bind_ok by apply Hsave.
    erewrite bind_ok by apply phase1c_run.
    cbv zeta. fold anchorBase64 creq cout ureq uout.
    unfold phase1d in *. cbn [app].
    erewrite bind_ok by apply Hloop.
    unfold ret. rewrite aligned_backgrounds_cons.
    cbn [length Nat.sub]. by rewrite Nat.sub_0_r.
  - by rewrite Hlen, length_seq.
  - rewrite Htrace. unfold st3. rewrite !trace_after.
    by rewrite <- !app_assoc.
Qed.

(** The build up to the call of [generateWhiskBackgrounds]. *)
Lemma buildPresentation_phase1_start config st :
  buildPresentation_phase1 config env st =
    (backgrounds <- generateWhiskBackgrounds (imagesDir env config) (style config)
                      (refs config) (slides config) ;;
     match backgrounds with
     | Some backgrounds => ret backgrounds
     | None => fallbackPass (imagesDir env config) (slides config)
     end) env (after 1 [] st).
Proof.
  destruct Hdisk as [Hwrite _]. unfold buildPresentation_phase1.
  erewrite bind_ok by reflexivity.
  erewrite bind_ok; [reflexivity|].
  unfold mkdirSync. erewrite bind_ok by reflexivity. rewrite Hwrite.
  unfold ret, after. cbn. by rewrite app_nil_r.
Qed.

End working_disk.


Lemma all_ok_disk_ok : disk_ok worlds.all_ok.
Proof. split; intros t p; [reflexivity|]. intros _. by eexists. Qed.


Lemma offline_disk_ok : disk_ok worlds.offline.
Proof. split; intros t p; [reflexivity|]. intros _. by eexists. Qed.

Lemma no_token_disk_ok : disk_ok worlds.no_token.
Proof. split; intros t p; [reflexivity|]. intros _. by eexists. Qed.


(** C2: if [loadToken] returns [null], [generateWhiskBackgrounds] returns
    [null] at once, without any effect (no upload, no caption, no
    generation), and the build then renders one local fallback gradient per
    slide and nothing else. *)
Theorem no_credential_full_fallback config env st :
  disk_ok env ->
  fst (loadToken env (after 1 [] st)) = Ok None ->
  let dir := imagesDir env config in
  (exists st1,
     generateWhiskBackgrounds dir (style config) (refs config) (slides config) env
       (after 1 [] st) = (Ok None, st1)
     /\ trace st1 = trace st)
  /\ (exists st',
       buildPresentation_phase1 config env st
         = (Ok (aligned_backgrounds env dir (slides config)), st')
       /\ trace st' = trace st ++ fallback_events env dir (slides config)
       /\ length (fallback_events env dir (slides config)) = length (slides config)).
Proof.
  intros Hdisk Hnull dir.
  destruct (loadToken_total env (after 1 [] st)) as (tokenData & st1 & Hload & Htrace).
  rewrite Hload in Hnull. cbn [fst] in Hnull. injection Hnull as ->.
  rewrite trace_after, app_nil_r in Htrace.
  split.
  - exists st1. split; [|exact Htrace]. by apply generateWhiskBackgrounds_no_token.
  - rewrite (buildPresentation_phase1_start env Hdisk).
    erewrite bind_ok by (by apply generateWhiskBackgrounds_no_token).
    cbv beta iota. rewrite (fallbackPass_run env Hdisk).
    eexists. split; [reflexivity|]. rewrite trace_after, Htrace.
    split; [reflexivity|]. apply length_imap.
Qed.

Lemma no_credential_full_fallback_witness :
  let config := worlds.demo ["title"; "content"] (Some ["ref.png"]) in
  exists st',
    buildPresentation_phase1 config worlds.no_token worlds.start
      = (Ok ["out/outputs/demo/images/bg-0-title.png";
             "out/outputs/demo/images/bg-1-content.png"], st')
    /\ trace st'
       = [ EvSharpPng "out/outputs/demo/images/bg-0-title.png" (fallbackSvg (palette "title"));
           EvSharpPng "out/outputs/demo/images/bg-1-content.png"
             (fallbackSvg (palette "content")) ].
Proof.
  intros config.
  destruct (no_credential_full_fallback config worlds.no_token worlds.start)
    as [_ (st' & Hrun & Htrace & _)].
  - apply no_token_disk_ok.
  - reflexivity.
  - exists st'. split; [exact Hrun|exact Htrace].
Defined.

(** C3: if the anchor generation call returns an unsuccessful result,
    [generateWhiskBackgrounds] returns [null] right after that call (it
    renders no fallback itself), and the build renders a fallback gradient
    for each of the N slides, slide 0 included. *)
Theorem anchor_failure_full_fallback
    config env st tokenData st1 userRefs st2 s0 anchorResult st3 :
  disk_ok env ->
  loadToken env (after 1 [] st) = (Ok (Some tokenData), st1) ->
  phase1a (accessToken tokenData) (refs config) env st1 = (Ok userRefs, st2) ->
  slides config !! 0 = Some s0 ->
  phase1b (style config) (accessToken tokenData) userRefs (type s0) env st2
    = (Ok anchorResult, st3) ->
  success anchorResult = false ->
  let dir := imagesDir env config in
  generateWhiskBackgrounds dir (style config) (refs config) (slides config) env
    (after 1 [] st) = (Ok None, st3)
  /\ (exists req out, trace st3 = trace st2 ++ [EvFetch req out])
  /\ exists st',
       buildPresentation_phase1 config env st
         = (Ok (aligned_backgrounds env dir (slides config)), st')
       /\ trace st' = trace st3 ++ fallback_events env dir (slides config)
       /\ length (aligned_backgrounds env dir (slides config)) = length (slides config)
       /\ fallback_events env dir (slides config) !! 0
          = Some (fallback_event env dir 0 (type s0)).
Proof.
  intros Hdisk Hload Hrefs Hs0 Hanchor Hfailed dir.
  rewrite phase1b_run in Hanchor. cbv zeta in Hanchor. injection Hanchor as <- <-.
  assert (generateWhiskBackgrounds dir (style config) (refs config) (slides config) env
            (after 1 [] st) = (Ok None, after 3 [EvFetch _ _] st2)) as Hnull
    by (eapply generateWhiskBackgrounds_anchor_failed; eassumption).
  split; [exact Hnull|]. split; [by eexists _, _|].
  rewrite (buildPresentation_phase1_start env Hdisk).
  erewrite bind_ok by apply Hnull.
  cbv beta iota. rewrite (fallbackPass_run env Hdisk).
  eexists. split; [reflexivity|]. split; [reflexivity|].
  split; [apply length_aligned_backgrounds|].
  unfold fallback_events. by rewrite list_lookup_imap, Hs0.
Qed.

Lemma anchor_failure_full_fallback_witness :
  let config := worlds.demo ["title"; "content"] None in
  exists st',
    buildPresentation_phase1 config worlds.offline worlds.start
      = (Ok ["out/outputs/demo/images/bg-0-title.png";
             "out/outputs/demo/images/bg-1-content.png"], st')
    /\ fallback_events worlds.offline "out/outputs/demo/images" (slides config) !! 0
       = Some (EvSharpPng "out/outputs/demo/images/bg-0-title.png"
                 (fallbackSvg (palette "title"))).
Proof.
  intros config.
  edestruct (anchor_failure_full_fallback config worlds.offline worlds.start)
    as (_ & _ & st' & Hrun & _ & _ & Hfirst).
  - apply offline_disk_ok.
  - reflexivity.
  - reflexivity.
  - reflexivity.
  - reflexivity.
  - reflexivity.
  - exists st'. split; [exact Hrun|exact Hfirst].
Defined.



Lemma Forall_concat_zip_with {A B} (P : Event -> Prop) (f : A -> B -> list Event) l k :
  (forall a b, Forall P (f a b)) -> Forall P (concat (zip_with f l k)).
Proof.
  intros Hf. revert k. induction l as [|a l IH]; intros [|b k]; cbn; try constructor.
  apply Forall_app. split; [apply Hf|apply IH].
Qed.

Lemma fetches_concat_zip_with {A B} (f : A -> B -> list Event) l k :
  (forall a b, length (List.filter is_fetch (f a b)) = 1) ->
  length k = length l ->
  length (List.filter is_fetch (concat (zip_with f l k))) = length l.
Proof.
  intros Hf. revert k. induction l as [|a l IH]; intros [|b k] Hlen; try done.
  cbn [zip_with concat length]. rewrite List.filter_app, length_app, Hf, IH; [done|].
  cbn in Hlen. lia.
Qed.

Lemma slide_events_one_fetch env outputDir styleDescription token refs slides i t :
  length (List.filter is_fetch
            (slide_events env outputDir styleDescription token refs slides i t)) = 1.
Proof. unfold slide_events. cbn. by destruct (success _). Qed.

(** C9: with no reference images from the caller, a valid credential and a
    remote whose every call succeeds, the build generates the anchor from text,
    saves it, uploads that same image, and then sends one generation request
    per later slide, each carrying exactly one reference: the one made of the
    anchor upload. *)
Theorem anchor_is_the_only_reference config env st tokenData st1 s0 :
  disk_ok env ->
  slides config !! 0 = Some s0 ->
  refs config = None \/ refs config = Some [] ->
  loadToken env (after 1 [] st) = (Ok (Some tokenData), st1) ->
  remote_succeeds env ->
  exists st' greq gout t later,
    let dir := imagesDir env config in
    let token := accessToken tokenData in
    let anchorBase64 := first_of (images_of gout) in
    let creq := caption_request env t anchorBase64 MEDIA_CATEGORY_STYLE token in
    let cout := fetch env (1 + t) creq in
    let ureq := upload_request env (2 + t) anchorBase64 MEDIA_CATEGORY_STYLE token in
    let uout := fetch env (3 + t) ureq in
    buildPresentation_phase1 config env st
      = (Ok (aligned_backgrounds env dir (slides config)), st')
    /\ trace st' = trace st
         ++ [ EvFetch greq gout; EvWriteFile (bgPath env dir 0 (type s0)) anchorBase64;
              EvFetch creq cout; EvFetch ureq uout ]
         ++ later
    /\ references_of greq = None
    /\ length (List.filter is_fetch later) = length (slides config) - 1
    /\ Forall (fun ev => forall req out,
                 ev = EvFetch req out ->
                 references_of req = Some [media_input (anchor_reference cout uout)])
         later.
Proof.
  intros Hdisk Hs0 Hnorefs Hload Hremote.
  assert (phase1a (accessToken tokenData) (refs config) env st1 = (Ok [], st1)) as Hrefs
    by (by destruct Hnorefs as [-> | ->]).
  set (token := accessToken tokenData).
  set (greq := slide_request env (tick st1) (style config) token [] (type s0)).
  set (gout := fetch env (2 + tick st1) greq).
  assert (success (images_of gout) = true) as Hanchor by apply (Hremote _ greq).
  destruct (generateWhiskBackgrounds_anchor_ok env Hdisk (imagesDir env config) (style config)
              (refs config) (slides config) (after 1 [] st) tokenData st1 [] st1 s0
              Hload Hrefs Hs0 Hanchor)
    as (t & ticks & st' & Hrun & Hlen & Htrace).
  cbv zeta in Hrun, Htrace. fold token greq gout in Htrace.
  set (anchorBase64 := first_of (images_of gout)) in *.
  set (creq := caption_request env t anchorBase64 MEDIA_CATEGORY_STYLE token) in *.
  set (cout := fetch env (1 + t) creq) in *.
  set (ureq := upload_request env (2 + t) anchorBase64 MEDIA_CATEGORY_STYLE token) in *.
  set (uout := fetch env (3 + t) ureq) in *.
  assert (consistency_refs [] cout uout = [anchor_reference cout uout]) as Hcons.
  { unfold consistency_refs. by rewrite (Hremote _ ureq : success (upload_of uout) = true). }
  rewrite Hcons in Htrace.
  exists st', greq, gout, t,
    (concat (zip_with
               (slide_events env (imagesDir env config) (style config) token
                  [anchor_reference cout uout] (slides config))
               (seq 1 (length (slides config) - 1)) ticks)).
  cbv zeta. fold token anchorBase64 creq cout ureq uout.
  split; [|split; [|split; [|split]]].
  - rewrite (buildPresentation_phase1_start env Hdisk). by erewrite bind_ok by apply Hrun.
  - rewrite Htrace, (loadToken_trace _ _ _ _ Hload), trace_after, app_nil_r. reflexivity.
  - reflexivity.
  - rewrite fetches_concat_zip_with; [by rewrite length_seq| |by rewrite length_seq].
    intros i t'. apply slide_events_one_fetch.
  - apply Forall_concat_zip_with. intros i t'. unfold slide_events.
    constructor; [|constructor; [|constructor]].
    + by intros req out [= <- _].
    + intros req out Hev. unfold fallback_event in Hev. case_match; discriminate.
Qed.

Lemma all_ok_remote_succeeds : remote_succeeds worlds.all_ok.
Proof. intros t [url bearer []]; reflexivity. Qed.

Lemma anchor_is_the_only_reference_witness :
  let config := worlds.demo ["title"; "content"; "data"] None in
  exists st' later,
    buildPresentation_phase1 config worlds.all_ok worlds.start
      = (Ok ["out/outputs/demo/images/bg-0-title.png";
             "out/outputs/demo/images/bg-1-content.png";
             "out/outputs/demo/images/bg-2-data.png"], st')
    /\ length (List.filter is_fetch later) = 2
    /\ Forall (fun ev => forall req out,
                 ev = EvFetch req out ->
                 references_of req
                 = Some [ {| rmi_caption := "a dark gradient";
                             rmi_mediaCategory := "MEDIA_CATEGORY_STYLE";
                             rmi_mediaGenerationId := Some "media-1" |} ])
         later.
Proof.
  intros config.
  edestruct (anchor_is_the_only_reference config worlds.all_ok worlds.start)
    as (st' & greq & gout & t & later & Hrun & _ & _ & Hcount & Hrefs).
  - apply all_ok_disk_ok.
  - reflexivity.
  - left. reflexivity.
  - reflexivity.
  - apply all_ok_remote_succeeds.
  - exists st', later. split; [exact Hrun|]. split; [exact Hcount|exact Hrefs].
Defined.

(** ** The slide templates *)

Lemma append_cons a s1 s2 : String a s1 +:+ s2 = String a (s1 +:+ s2).
Proof. reflexivity. Qed.

Lemma append_assoc s1 s2 s3 : (s1 +:+ s2) +:+ s3 = s1 +:+ s2 +:+ s3.
Proof.
  induction s1 as [|a s1 IH]; [done|]. by rewrite !append_cons, IH.
Qed.

Lemma occurrences_app c s1 s2 :
  occurrences c (s1 +:+ s2) = occurrences c s1 + occurrences c s2.
Proof.
  induction s1 as [|a s1 IH]; [done|].
  rewrite append_cons. cbn [occurrences]. rewrite IH. lia.
Qed.

Lemma replace_all_app c by_ s1 s2 :
  replace_all c by_ (s1 +:+ s2) = replace_all c by_ s1 +:+ replace_all c by_ s2.
Proof.
  induction s1 as [|a s1 IH]; [done|].
  rewrite append_cons. cbn [replace_all]. rewrite IH.
  destruct (Ascii.eqb a c); [|done]. by rewrite append_assoc.
Qed.

Lemma replace_chain_escape_chars s :
  replace_all "034"%char "&quot;"
    (replace_all ">"%char "&gt;"
       (replace_all "<"%char "&lt;" (replace_all "&"%char "&amp;" s)))
  = escape_chars s.
Proof.
  induction s as [|a s IH]; [done|].
  cbn [replace_all escape_chars]. unfold entity.
  destruct (Ascii.eqb a "&") eqn:Hamp.
  { rewrite !replace_all_app, IH. reflexivity. }
  cbn [replace_all]. destruct (Ascii.eqb a "<") eqn:Hlt.
  { rewrite !replace_all_app, IH. reflexivity. }
  cbn [replace_all]. destruct (Ascii.eqb a ">") eqn:Hgt.
  { rewrite !replace_all_app, IH. reflexivity. }
  cbn [replace_all]. destruct (Ascii.eqb a "034") eqn:Hquot.
  { rewrite IH. reflexivity. }
  rewrite IH. reflexivity.
Qed.

Lemma esc_escape_chars s : esc (Some s) = escape_chars s.
Proof.
  unfold esc. cbn [truthy_string default]. destruct (String.eqb_spec s EmptyString) as [->|_].
  - reflexivity.
  - cbn [negb]. apply replace_chain_escape_chars.
Qed.

Lemma esc_falsy v : truthy_string v = false -> esc v = EmptyString.
Proof. intros Hv. unfold esc. by rewrite Hv. Qed.

Lemma entity_no_markup c a : c ∈ markup_chars -> occurrences c (entity a) = 0.
Proof.
  intros Hc. unfold entity.
  destruct (Ascii.eqb_spec a "&") as [->|Hamp].
  { repeat (apply elem_of_cons in Hc as [->|Hc]; [reflexivity|]). by apply elem_of_nil in Hc. }
  destruct (Ascii.eqb_spec a "<") as [->|Hlt].
  { repeat (apply elem_of_cons in Hc as [->|Hc]; [reflexivity|]). by apply elem_of_nil in Hc. }
  destruct (Ascii.eqb_spec a ">") as [->|Hgt].
  { repeat (apply elem_of_cons in Hc as [->|Hc]; [reflexivity|]). by apply elem_of_nil in Hc. }
  destruct (Ascii.eqb_spec a "034") as [->|Hquot].
  { repeat (apply elem_of_cons in Hc as [->|Hc]; [reflexivity|]). by apply elem_of_nil in Hc. }
  cbn [occurrences]. destruct (Ascii.eqb_spec a c) as [->|_]; [|done].
  repeat (apply elem_of_cons in Hc as [->|Hc]; [done|]). by apply elem_of_nil in Hc.
Qed.

Lemma esc_no_markup c v : c ∈ markup_chars -> occurrences c (esc v) = 0.
Proof.
  intros Hc. destruct v as [s|]; [|reflexivity].
  rewrite esc_escape_chars. induction s as [|a s IH]; [done|].
  cbn [escape_chars]. by rewrite occurrences_app, entity_no_markup, IH.
Qed.

Lemma occurrences_append_for c n (piece1 piece2 : nat -> string) :
  (forall i, occurrences c (piece1 i) = occurrences c (piece2 i)) ->
  occurrences c (append_for n piece1) = occurrences c (append_for n piece2).
Proof.
  intros Hpiece. unfold append_for.
  assert (forall l html1 html2,
            occurrences c html1 = occurrences c html2 ->
            occurrences c (fold_left (fun html i => html +:+ piece1 i) l html1)
            = occurrences c (fold_left (fun html i => html +:+ piece2 i) l html2)) as Hfold.
  { induction l as [|i l IH]; intros html1 html2 Hhtml; [done|].
    cbn [fold_left]. apply IH. by rewrite !occurrences_app, Hhtml, Hpiece. }
  by apply Hfold.
Qed.

Lemma occurrences_join c sep (pieces1 pieces2 : list string) :
  Forall2 (fun p1 p2 => occurrences c p1 = occurrences c p2) pieces1 pieces2 ->
  occurrences c (join sep pieces1) = occurrences c (join sep pieces2).
Proof.
  unfold join. induction 1 as [|p1 p2 pieces1 pieces2 Hp Hrest IH]; [done|].
  destruct Hrest as [|q1 q2 pieces1 pieces2 Hq Hrest]; [done|].
  change (occurrences c (p1 +:+ sep +:+ String.concat sep (q1 :: pieces1))
          = occurrences c (p2 +:+ sep +:+ String.concat sep (q2 :: pieces2))).
  by rewrite !occurrences_app, Hp, IH.
Qed.

Lemma occurrences_join_map {A} c sep (f g : A -> string) (l k : list A) :
  length l = length k ->
  (forall x y, occurrences c (f x) = occurrences c (g y)) ->
  occurrences c (join sep (map f l)) = occurrences c (join sep (map g k)).
Proof.
  intros Hlen Hfg. apply occurrences_join.
  apply Forall2_fmap, Forall2_true; done.
Qed.

Lemma occurrences_join_imap {A} c sep (f g : nat -> A -> string) (l k : list A) :
  length l = length k ->
  (forall i x y, occurrences c (f i x) = occurrences c (g i y)) ->
  occurrences c (join sep (imap f l)) = occurrences c (join sep (imap g k)).
Proof.
  intros Hlen Hfg. apply occurrences_join.
  apply Forall2_same_length_lookup_2.
  - by rewrite !length_imap.
  - intros i p1 p2. rewrite !list_lookup_imap.
    destruct (l !! i), (k !! i); intros [= <-] [= <-]. apply Hfg.
Qed.

Ltac count_markup := rewrite ?occurrences_app, ?esc_no_markup by done.

Ltac same_sums := repeat match goal with |- _ + _ = _ + _ => f_equal end.

Lemma titleSlide_markup c bgImage s1 s2 :
  same_shape s1 s2 -> c ∈ markup_chars ->
  occurrences c (titleSlide bgImage s1) = occurrences c (titleSlide bgImage s2).
Proof.
  intros (Hsubtitle & Hdate & _) Hc. unfold titleSlide, wrapSlide. cbv zeta.
  rewrite Hsubtitle, Hdate.
  destruct (truthy_string (subtitle s2)), (truthy_string (date s2)); by count_markup.
Qed.

Lemma contentSlide_markup c bgImage s1 s2 :
  same_shape s1 s2 -> c ∈ markup_chars ->
  occurrences c (contentSlide bgImage s1) = occurrences c (contentSlide bgImage s2).
Proof.
  intros (_ & _ & Hbullets & _) Hc. unfold contentSlide, wrapSlide. cbv zeta.
  count_markup. same_sums.
  apply occurrences_join_map; [done|]. intros b1 b2. by count_markup.
Qed.

Lemma dataSlide_markup c bgImage s1 s2 :
  same_shape s1 s2 -> c ∈ markup_chars ->
  occurrences c (dataSlide bgImage s1) = occurrences c (dataSlide bgImage s2).
Proof.
  intros (_ & _ & _ & Hmetrics & _) Hc. unfold dataSlide, wrapSlide. cbv zeta.
  count_markup. rewrite Hmetrics. same_sums.
  apply occurrences_append_for. intros i. by count_markup.
Qed.

Lemma featuresSlide_markup c bgImage s1 s2 :
  same_shape s1 s2 -> c ∈ markup_chars ->
  occurrences c (featuresSlide bgImage s1) = occurrences c (featuresSlide bgImage s2).
Proof.
  intros (_ & _ & _ & _ & Hfeatures & _) Hc. unfold featuresSlide, wrapSlide. cbv zeta.
  count_markup. rewrite Hfeatures. same_sums.
  apply occurrences_append_for. intros i. by count_markup.
Qed.

Lemma closingSlide_markup c bgImage s1 s2 :
  same_shape s1 s2 -> c ∈ markup_chars ->
  occurrences c (closingSlide bgImage s1) = occurrences c (closingSlide bgImage s2).
Proof.
  intros (_ & _ & _ & _ & _ & Hlines) Hc. unfold closingSlide, wrapSlide. cbv zeta.
  count_markup. same_sums.
  - apply occurrences_join_imap; [done|]. intros i l1 l2. by count_markup.
  - apply occurrences_join_imap; [done|]. intros i l1 l2. by count_markup.
Qed.

(** C10: [esc] maps a falsy input to the empty string and otherwise replaces
    each of the four special characters by its entity, all at once (an
    entity is never escaped again), so its result has no tag or quote
    character.  Every text field that the five templates insert goes through
    it: the tag and quote characters of a rendered slide are those of the
    template, whatever the texts of the descriptor are. *)
Theorem templates_escape_user_text :
  (forall v, truthy_string v = false -> esc v = EmptyString)
  /\ (forall s, esc (Some s) = escape_chars s)
  /\ (forall c v, c ∈ markup_chars -> occurrences c (esc v) = 0)
  /\ (forall c bgImage s1 s2,
        same_shape s1 s2 ->
        c ∈ markup_chars ->
        occurrences c (titleSlide bgImage s1) = occurrences c (titleSlide bgImage s2)
        /\ occurrences c (contentSlide bgImage s1) = occurrences c (contentSlide bgImage s2)
        /\ occurrences c (dataSlide bgImage s1) = occurrences c (dataSlide bgImage s2)
        /\ occurrences c (featuresSlide bgImage s1) = occurrences c (featuresSlide bgImage s2)
        /\ occurrences c (closingSlide bgImage s1) = occurrences c (closingSlide bgImage s2)).
Proof.
  split; [exact esc_falsy|]. split; [exact esc_escape_chars|].
  split; [exact esc_no_markup|]. intros c bgImage s1 s2 Hshape Hc.
  split; [by apply titleSlide_markup|]. split; [by apply contentSlide_markup|].
  split; [by apply dataSlide_markup|]. split; [by apply featuresSlide_markup|].
  by apply closingSlide_markup.
Qed.

Lemma templates_escape_user_text_witness :
  let plain :=
    {| type := "content"; title := Some "Plan"; subtitle := None; date := None;
       bullets := Some ["one"; "two"]; metrics := None; chartLabel := None;
       features := None; heading := None; contactLines := None |} in
  let hostile :=
    {| type := "content"; title := Some "<script>alert(1)</script>"; subtitle := None;
       date := None; bullets := Some ["</li><img src=x>"; "a & b"]; metrics := None;
       chartLabel := None; features := None; heading := None; contactLines := None |} in
  esc None = EmptyString
  /\ esc (title hostile) = "&lt;script&gt;alert(1)&lt;/script&gt;"
  /\ occurrences "<" (contentSlide "bg.png" hostile)
     = occurrences "<" (contentSlide "bg.png" plain).
Proof.
  intros plain hostile.
  destruct templates_escape_user_text as (Hfalsy & Hchars & _ & Hslides).
  split; [by apply Hfalsy|].
  split; [exact (Hchars "<script>alert(1)</script>")|].
  destruct (Hslides "<"%char "bg.png" hostile plain) as (_ & Hcontent & _).
  - by repeat split.
  - by left.
  - exact Hcontent.
Defined.

(** * Further properties of the code *)

(** ** The client *)





Lemma upload_of_shape out :
  if success (upload_of out)
  then truthy_string (mediaId (upload_of out)) = true
  else mediaId (upload_of out) = None /\ is_Some (error (upload_of out)).
Proof.
  unfold upload_of.
  destruct out as [message|r]; [by cbn|].
  destruct (resp_ok r); [|by cbn].
  destruct (resp_json r) as [data|message]; [|by cbn].
  destruct (truthy_string (uploadMediaGenerationId data)) eqn:Hid; by cbn.
Qed.

Lemma caption_of_shape out :
  success (caption_of out) = true -> is_Some (caption (caption_of out)).
Proof.
  unfold caption_of.
  destruct out as [message|r]; [done|].
  destruct (resp_ok r); [|done].
  destruct (resp_json r) as [data|message]; [|done].
  by cbn.
Qed.

Lemma caption_request_ok env t data category token :
  request_ok token (caption_request env t data category token).
Proof.
  unfold request_ok. cbn. split; [done|]. split; [|by left].
  apply list_elem_of_lookup. by exists 3.
Qed.

Lemma upload_request_ok env t data category token :
  request_ok token (upload_request env t data category token).
Proof.
  unfold request_ok. cbn. split; [done|]. split; [|by left].
  apply list_elem_of_lookup. by exists 2.
Qed.

Lemma uploadAndAnalyze_shape data category token env st :
  exists result st' creq cout ureq uout,
    uploadAndAnalyze data category token env st = (Ok result, st')
    /\ analysis_shape result
    /\ trace st' = trace st ++ [EvFetch creq cout; EvFetch ureq uout]
    /\ req_url creq = ENDPOINTS_caption /\ req_url ureq = ENDPOINTS_upload
    /\ request_ok token creq /\ request_ok token ureq.
Proof.
  rewrite uploadAndAnalyze_run. cbv zeta. eexists _, _, _, _, _, _.
  split; [reflexivity|]. split.
  - unfold analysis_shape.
    match goal with |- context [upload_of ?o] => pose proof (upload_of_shape o) as Hup end.
    destruct (success (upload_of _)); cbn [success mediaId caption error].
    + split; [exact Hup|]. split; [|done].
      match goal with |- context [caption_of ?o] => pose proof (caption_of_shape o) as Hcap end.
      destruct (success (caption_of _)); [by apply Hcap|by eexists].
    + destruct Hup as [_ Herror]. done.
  - split; [reflexivity|]. split; [done|]. split; [done|].
    split; [apply caption_request_ok|apply upload_request_ok].
Qed.

(** X3: [uploadAndAnalyze] never throws and sends exactly two requests, the
    caption one and then the upload one, both with the given token.  A
    successful result carries a non-empty media id and a caption (possibly
    empty); a failed one carries an error and neither of them. *)
Theorem uploadAndAnalyze_two_requests data category token env st :
  exists result st' creq cout ureq uout,
    uploadAndAnalyze data category token env st = (Ok result, st')
    /\ analysis_shape result
    /\ trace st' = trace st ++ [EvFetch creq cout; EvFetch ureq uout]
    /\ req_url creq = ENDPOINTS_caption /\ req_url ureq = ENDPOINTS_upload
    /\ req_bearer creq = token /\ req_bearer ureq = token.
Proof.
  destruct (uploadAndAnalyze_shape data category token env st)
    as (result & st' & creq & cout & ureq & uout & Hrun & Hshape & Htrace & Hcurl & Huurl
        & [Hcb _] & [Hub _]).
  by exists result, st', creq, cout, ureq, uout.
Qed.

(** X4: a credential that [loadToken] returns is the pair of the file, has
    a non-empty access token and is valid for 300000 ms at least after the
    clock reading; loading it has no observable effect. *)
Theorem loadToken_sound env st tokenData st' :
  loadToken env st = (Ok (Some tokenData), st') ->
  token_file env (tick st)
    = TokenParsed {| tj_accessToken := Some (accessToken tokenData);
                     tj_expiresAt := Some (expiresAt tokenData) |}
  /\ accessToken tokenData <> EmptyString
  /\ (date_now env (S (tick st)) + 300000 <= expiresAt tokenData)%Z
  /\ trace st' = trace st.
Proof.
  intros Hload. destruct (loadToken_run env st) as (st'' & Hrun & Htrace).
  rewrite Hload in Hrun. injection Hrun as Hvalue <-.
  cbv zeta in Hvalue. unfold rejected in Hvalue.
  destruct (token_file env (tick st)) as [| |[[a|] [e|]]]; try done;
    cbn [tj_accessToken tj_expiresAt] in Hvalue.
  - destruct (truthy_string (Some a)) eqn:Ha, (truthy_number (Some e)) eqn:He,
      (e <? date_now env (S (tick st)) + 300000)%Z eqn:Hlt; cbn in Hvalue; try done.
    injection Hvalue as ->. cbn [accessToken expiresAt].
    split; [done|]. split; [|split; [lia|done]].
    intros ->. by cbn in Ha.
  - by destruct (truthy_string (Some a)).
Qed.

Lemma loadToken_sound_witness :
  (date_now worlds.all_ok 1 + 300000 <= 2000000000000)%Z.
Proof.
  destruct (loadToken_sound worlds.all_ok worlds.start
              {| accessToken := "ya29.token"; expiresAt := 2000000000000 |}
              (after 2 [] worlds.start) eq_refl) as (_ & _ & Hvalid & _).
  exact Hvalid.
Defined.

(** X5: the expiry check is monotone in time: a credential file accepted
    at one clock reading is accepted, with the same result, at any earlier
    one. *)
Theorem loadToken_accepts_earlier env1 env2 st1 st2 tokenData :
  token_file env1 (tick st1) = token_file env2 (tick st2) ->
  (date_now env1 (S (tick st1)) <= date_now env2 (S (tick st2)))%Z ->
  fst (loadToken env2 st2) = Ok (Some tokenData) ->
  fst (loadToken env1 st1) = Ok (Some tokenData).
Proof.
  intros Hfile Hclock.
  destruct (loadToken_run env1 st1) as (st1' & -> & _).
  destruct (loadToken_run env2 st2) as (st2' & -> & _).
  cbv zeta. cbn [fst]. rewrite Hfile. unfold rejected.
  destruct (token_file env2 (tick st2)) as [| |[[a|] [e|]]]; try done;
    cbn [tj_accessToken tj_expiresAt].
  destruct (negb (truthy_string (Some a)) || negb (truthy_number (Some e))); [done|].
  cbn [orb].
  destruct (Z.ltb_spec e (date_now env2 (S (tick st2)) + 300000)); [done|].
  destruct (Z.ltb_spec e (date_now env1 (S (tick st1)) + 300000)); [lia|done].
Qed.

Lemma loadToken_accepts_earlier_witness :
  fst (loadToken worlds.all_ok worlds.start)
  = Ok (Some {| accessToken := "ya29.token"; expiresAt := 2000000000000 |}).
Proof.
  apply (loadToken_accepts_earlier worlds.all_ok worlds.all_ok worlds.start
           (after 5 [] worlds.start)).
  - reflexivity.
  - cbn. lia.
  - reflexivity.
Defined.



(** ** The orchestrator: effects of phase 1 *)

Lemma written_paths_app evs1 evs2 :
  written_paths (evs1 ++ evs2) = written_paths evs1 ++ written_paths evs2.
Proof. apply omap_app. Qed.

Lemma requests_app evs1 evs2 : requests (evs1 ++ evs2) = requests evs1 ++ requests evs2.
Proof. apply omap_app. Qed.

Lemma requests_fetch req out evs : requests (EvFetch req out :: evs) = req :: requests evs.
Proof. reflexivity. Qed.

Lemma requests_write path data evs : requests (EvWriteFile path data :: evs) = requests evs.
Proof. reflexivity. Qed.

Lemma requests_nil : requests [] = [].
Proof. reflexivity. Qed.

Lemma written_paths_fetch req out evs :
  written_paths (EvFetch req out :: evs) = written_paths evs.
Proof. reflexivity. Qed.

Lemma written_paths_write path data evs :
  written_paths (EvWriteFile path data :: evs) = path :: written_paths evs.
Proof. reflexivity. Qed.

Lemma written_paths_nil : written_paths [] = [].
Proof. reflexivity. Qed.

Ltac read_trace :=
  repeat first
    [ rewrite requests_app | rewrite written_paths_app
    | rewrite requests_fetch | rewrite requests_write | rewrite requests_nil
    | rewrite written_paths_fetch | rewrite written_paths_write | rewrite written_paths_nil ].

Lemma slide_request_ok env t styleDescription token refs slideType :
  request_ok token (slide_request env t styleDescription token refs slideType).
Proof.
  unfold slide_request, request_ok.
  destruct (0 <? length refs)%nat; cbn; (split; [done|]); (split; [|by right]).
  - apply list_elem_of_lookup. by exists 1.
  - apply list_elem_of_lookup. by exists 0.
Qed.

Lemma written_paths_slide_events env dir styleDescription token refs slides i t :
  written_paths (slide_events env dir styleDescription token refs slides i t)
  = [bgPath env dir i (from_option type EmptyString (slides !! i))].
Proof. unfold slide_events, fallback_event. cbn. by destruct (success _). Qed.

Lemma requests_slide_events env dir styleDescription token refs slides i t :
  requests (slide_events env dir styleDescription token refs slides i t)
  = [slide_request env t styleDescription token refs
       (from_option type EmptyString (slides !! i))].
Proof. unfold slide_events, fallback_event. cbn. by destruct (success _). Qed.

Lemma written_paths_slide_loop env dir styleDescription token refs slides indices ticks :
  length ticks = length indices ->
  written_paths
    (concat (zip_with (slide_events env dir styleDescription token refs slides) indices ticks))
  = map (fun i => bgPath env dir i (from_option type EmptyString (slides !! i))) indices.
Proof.
  revert ticks. induction indices as [|i indices IH]; intros [|t ticks] Hlen; try done.
  cbn [zip_with concat map]. rewrite written_paths_app, written_paths_slide_events, IH; [done|].
  cbn in Hlen. lia.
Qed.

Lemma requests_slide_loop env dir styleDescription token refs slides indices ticks :
  length ticks = length indices ->
  requests
    (concat (zip_with (slide_events env dir styleDescription token refs slides) indices ticks))
  = zip_with (fun i t => slide_request env t styleDescription token refs
                           (from_option type EmptyString (slides !! i))) indices ticks.
Proof.
  revert ticks. induction indices as [|i indices IH]; intros [|t ticks] Hlen; try done.
  cbn [zip_with concat]. rewrite requests_app, requests_slide_events, IH; [done|].
  cbn in Hlen. lia.
Qed.

Lemma Forall_zip_with_all {A B C} (P : C -> Prop) (f : A -> B -> C) l k :
  (forall a b, P (f a b)) -> Forall P (zip_with f l k).
Proof.
  intros Hf. revert k. induction l as [|a l IH]; intros [|b k]; cbn; constructor; auto.
Qed.

Lemma written_paths_imap {A} (g : nat -> A -> Event) (h : nat -> A -> string) l :
  (forall i a, written_paths [g i a] = [h i a]) ->
  written_paths (imap g l) = imap h l.
Proof.
  revert g h. induction l as [|a l IH]; intros g h Hgh; [done|].
  cbn [imap]. change (g 0 a :: imap (g ∘ S) l) with ([g 0 a] ++ imap (g ∘ S) l).
  rewrite written_paths_app, Hgh. cbn [app]. f_equal.
  apply IH. intros i a'. apply Hgh.
Qed.

Lemma requests_imap_none {A} (g : nat -> A -> Event) l :
  (forall i a, requests [g i a] = []) -> requests (imap g l) = [].
Proof.
  revert g. induction l as [|a l IH]; intros g Hg; [done|].
  cbn [imap]. change (g 0 a :: imap (g ∘ S) l) with ([g 0 a] ++ imap (g ∘ S) l).
  rewrite requests_app, Hg. cbn [app]. apply IH. intros i a'. apply Hg.
Qed.

Lemma written_paths_fallback_events env dir slides :
  written_paths (fallback_events env dir slides) = aligned_backgrounds env dir slides.
Proof. by apply written_paths_imap. Qed.

Lemma requests_fallback_events env dir slides : requests (fallback_events env dir slides) = [].
Proof. by apply requests_imap_none. Qed.

(** Phase 1a sends only caption and upload requests with the token, two per
    reference at most, writes nothing, and keeps only well-formed references. *)
Lemma phase1a_effects token refPaths env st :
  exists outcome st' evs,
    phase1a token refPaths env st = (outcome, st')
    /\ trace st' = trace st ++ evs
    /\ written_paths evs = []
    /\ Forall (request_ok token) (requests evs)
    /\ length (requests evs) <= 2 * length (default [] refPaths)
    /\ forall userRefs,
         outcome = Ok userRefs ->
         length userRefs <= length (default [] refPaths) /\ Forall reference_ok userRefs.
Proof.
  unfold phase1a.
  match goal with
  | |- context [foldM ?step _ _] =>
      enough (forall paths acc st,
                Forall reference_ok acc ->
                exists outcome st' evs,
                  foldM step paths acc env st = (outcome, st')
                  /\ trace st' = trace st ++ evs
                  /\ written_paths evs = []
                  /\ Forall (request_ok token) (requests evs)
                  /\ length (requests evs) <= 2 * length paths
                  /\ forall userRefs,
                       outcome = Ok userRefs ->
                       length userRefs <= length acc + length paths
                       /\ Forall reference_ok userRefs)
        as Hfold
  end.
  { destruct (Hfold (default [] refPaths) [] st (Forall_nil_2 _))
      as (outcome & st' & evs & Hrun & Htrace & Hwritten & Hreqs & Hcount & Hrefs).
    by exists outcome, st', evs. }
  clear st. induction paths as [|refPath paths IH]; intros acc st Hacc.
  - exists (Ok acc), st, []. cbn. rewrite app_nil_r.
    split; [done|]. split; [done|]. split; [done|]. split; [constructor|].
    split; [cbn; lia|]. intros userRefs [= <-]. split; [lia|done].
  - cbn [foldM].
    destruct (fs_existsSync env (tick st) refPath) eqn:Hexists.
    + destruct (fs_readBase64 env (S (tick st)) refPath) as [base64|] eqn:Hread.
      * destruct (uploadAndAnalyze_shape base64 MEDIA_CATEGORY_STYLE token env
                    {| tick := S (S (tick st)); trace := trace st |})
          as (analysis & st1 & creq & cout & ureq & uout & Hrun & Hshape & Htrace1
              & _ & _ & Hcreq & Hureq).
        set (acc' := if success analysis
                     then acc ++ [ {| ref_category := MEDIA_CATEGORY_STYLE;
                                      ref_mediaId := mediaId analysis;
                                      ref_caption := caption analysis |} ]
                     else acc).
        assert (Forall reference_ok acc' /\ length acc' <= S (length acc)) as [Hacc' Hlen'].
        { subst acc'. unfold analysis_shape in Hshape.
          destruct (success analysis).
          - split; [|rewrite length_app; cbn; lia].
            apply Forall_app. split; [done|]. constructor; [|constructor].
            destruct Hshape as (Hid & Hcap & _). done.
          - split; [done|lia]. }
        destruct (IH acc' st1 Hacc')
          as (outcome & st' & evs & Hrest & Htrace & Hwritten & Hreqs & Hcount & Hrefs).
        exists outcome, st', ([EvFetch creq cout; EvFetch ureq uout] ++ evs).
        split; [|split; [|split; [|split; [|split]]]].
        -- erewrite bind_ok; [exact Hrest|].
           erewrite bind_ok by (unfold existsSync, ask; rewrite Hexists; reflexivity).
           cbn [negb].
           erewrite bind_ok
             by (unfold readFileSync_base64, bind, ask; cbn [tick]; rewrite Hread;
                 reflexivity).
           cbn [tick trace].
           erewrite bind_ok by apply Hrun.
           subst acc'. by destruct (success analysis).
        -- rewrite Htrace, Htrace1. cbn [trace]. by rewrite <- app_assoc.
        -- by rewrite written_paths_app, Hwritten.
        -- rewrite requests_app. apply Forall_app. split; [|done].
           cbn. by constructor; [|constructor; [|constructor]].
        -- rewrite requests_app, length_app. cbn [length requests omap]. cbn. lia.
        -- intros userRefs Hout. destruct (Hrefs userRefs Hout) as [Hlen Hok].
           split; [cbn; lia|done].
      * exists (Throw "EISDIR: read"), (after 2 [] st), [].
        split; [|split; [|split; [|split; [|split]]]]; try done.
        -- erewrite bind_throw; [reflexivity|].
           erewrite bind_ok by (unfold existsSync, ask; rewrite Hexists; reflexivity).
           cbn [negb]. erewrite bind_throw; [reflexivity|].
           unfold readFileSync_base64, bind, ask, throw. cbn [tick]. rewrite Hread.
           unfold after. cbn. by rewrite app_nil_r.
        -- cbn. lia.
    + destruct (IH acc {| tick := S (tick st); trace := trace st |} Hacc)
        as (outcome & st' & evs & Hrest & Htrace & Hwritten & Hreqs & Hcount & Hrefs).
      exists outcome, st', evs.
      split; [|split; [|split; [|split; [|split]]]]; try done.
      * erewrite bind_ok; [exact Hrest|].
        erewrite bind_ok by (unfold existsSync, ask; rewrite Hexists; reflexivity).
        reflexivity.
      * cbn [length]. lia.
      * intros userRefs Hout. destruct (Hrefs userRefs Hout). split; [cbn; lia|done].
Qed.

(** The effects of phase 1 of a build, whatever path it takes. *)
Lemma buildPresentation_phase1_effects config env st :
  disk_ok env ->
  1 <= length (slides config) ->
  let dir := imagesDir env config in
  exists tokenData st' evs,
    fst (loadToken env (after 1 [] st)) = Ok tokenData
    /\ buildPresentation_phase1 config env st
       = (Ok (aligned_backgrounds env dir (slides config)), st')
    /\ trace st' = trace st ++ evs
    /\ written_paths evs = aligned_backgrounds env dir (slides config)
    /\ length (requests evs)
       <= 2 * length (default [] (refs config)) + length (slides config) + 2
    /\ match tokenData with
       | Some tokenData => Forall (request_ok (accessToken tokenData)) (requests evs)
       | None => requests evs = []
       end.
Proof.
  intros Hdisk Hlen dir.
  rewrite (buildPresentation_phase1_start env Hdisk). fold dir.
  destruct (loadToken_total env (after 1 [] st)) as ([tokenData|] & st1 & Hload & Htrace1).
  - exists (Some tokenData). rewrite Hload. cbn [fst].
    destruct (phase1a_effects (accessToken tokenData) (refs config) env st1)
      as (outcome & st2 & evs1 & Hrefs & Htrace2 & Hwritten1 & Hreqs1 & Hcount1 & _).
    destruct (phase1a_total env Hdisk (accessToken tokenData) (refs config) st1)
      as (userRefs & st2' & Hrefs').
    rewrite Hrefs' in Hrefs. injection Hrefs as <- <-.
    destruct (slides config) as [|s0 rest] eqn:Hslides; [cbn in Hlen; lia|].
    rewrite <- Hslides in *.
    assert (slides config !! 0 = Some s0) as Hs0 by (by rewrite Hslides).
    set (req := slide_request env (tick st2') (style config) (accessToken tokenData)
                  userRefs (type s0)).
    destruct (success (images_of (fetch env (2 + tick st2') req))) eqn:Hanchor.
    + destruct (generateWhiskBackgrounds_anchor_ok env Hdisk dir (style config)
                  (refs config) (slides config) (after 1 [] st) tokenData st1 userRefs st2' s0
                  Hload Hrefs' Hs0 Hanchor)
        as (t & ticks & st' & Hrun & Hticks & Htrace).
      cbv zeta in Hrun, Htrace. fold req in Htrace.
      eexists st', _. split; [reflexivity|].
      split; [by erewrite bind_ok by apply Hrun|].
      split; [rewrite Htrace, Htrace2, Htrace1, trace_after, app_nil_r;
              rewrite <- !app_assoc; reflexivity|].
      assert (length ticks = length (seq 1 (length (slides config) - 1))) as Hticks'
        by (by rewrite length_seq).
      split; [|split].
      * read_trace. rewrite Hwritten1, written_paths_slide_loop by done.
        rewrite Hslides, aligned_backgrounds_cons. cbn [length Nat.sub app].
        by rewrite Nat.sub_0_r.
      * read_trace. rewrite requests_slide_loop by done.
        rewrite !length_app. cbn [length]. rewrite length_zip_with, length_seq. lia.
      * read_trace. apply Forall_app. split; [done|].
        constructor; [apply slide_request_ok|].
        constructor; [apply caption_request_ok|].
        constructor; [apply upload_request_ok|].
        rewrite requests_slide_loop by done.
        apply Forall_zip_with_all. intros i t'. apply slide_request_ok.
    + erewrite bind_ok
        by (eapply generateWhiskBackgrounds_anchor_failed;
            [exact Hload|exact Hrefs'|exact Hs0|exact Hanchor]).
      cbv beta iota. rewrite (fallbackPass_run env Hdisk).
      eexists _, _. split; [reflexivity|]. split; [reflexivity|].
      split; [rewrite !trace_after, Htrace2, Htrace1, trace_after, app_nil_r;
              rewrite <- !app_assoc; reflexivity|].
      split; [|split].
      * read_trace. by rewrite Hwritten1, written_paths_fallback_events.
      * read_trace. rewrite requests_fallback_events, !length_app. cbn [length]. lia.
      * read_trace. rewrite requests_fallback_events.
        apply Forall_app. split; [done|]. constructor; [apply slide_request_ok|constructor].
  - exists None. rewrite Hload. cbn [fst].
    erewrite bind_ok by (by apply generateWhiskBackgrounds_no_token).
    cbv beta iota. rewrite (fallbackPass_run env Hdisk).
    eexists _, _. split; [reflexivity|]. split; [reflexivity|].
    split; [rewrite trace_after, Htrace1, trace_after, app_nil_r; reflexivity|].
    split; [apply written_paths_fallback_events|].
    rewrite requests_fallback_events. split; [cbn; lia|done].
Qed.

(** X7: phase 1a keeps at most one reference per path, each with the style
    category, a non-empty media id and a caption; it sends two requests per
    path at most and writes no file. *)
Theorem phase1a_references_well_formed token refPaths env st userRefs st' :
  phase1a token refPaths env st = (Ok userRefs, st') ->
  length userRefs <= length (default [] refPaths)
  /\ Forall reference_ok userRefs
  /\ exists evs,
       trace st' = trace st ++ evs
       /\ written_paths evs = []
       /\ length (requests evs) <= 2 * length (default [] refPaths).
Proof.
  intros Hrun.
  destruct (phase1a_effects token refPaths env st)
    as (outcome & st'' & evs & Hrun' & Htrace & Hwritten & _ & Hcount & Hrefs).
  rewrite Hrun in Hrun'. injection Hrun' as <- <-.
  destruct (Hrefs userRefs eq_refl) as [Hlen Hok].
  split; [exact Hlen|]. split; [exact Hok|]. by exists evs.
Qed.

Lemma phase1a_references_well_formed_witness :
  Forall reference_ok
    [ {| ref_category := "MEDIA_CATEGORY_STYLE"; ref_mediaId := Some "media-1";
         ref_caption := Some "a dark gradient" |} ].
Proof.
  destruct (phase1a_references_well_formed "t" (Some ["ref.png"]) worlds.all_ok worlds.start
              [ {| ref_category := "MEDIA_CATEGORY_STYLE"; ref_mediaId := Some "media-1";
                   ref_caption := Some "a dark gradient" |} ]
              (after 6 [EvFetch (caption_request worlds.all_ok 2 "cmVm" "MEDIA_CATEGORY_STYLE" "t")
                          (FetchResolves worlds.ok_response);
                        EvFetch (upload_request worlds.all_ok 4 "cmVm" "MEDIA_CATEGORY_STYLE" "t")
                          (FetchResolves worlds.ok_response)] worlds.start)
              eq_refl) as (_ & Hok & _).
  exact Hok.
Defined.

(** X8: a reference path that does not exist is skipped without any remote
    call: when none of the paths exists, phase 1a returns no reference and
    has no effect, whatever else the world does. *)
Theorem phase1a_skips_missing_files token refPaths env st :
  (forall t p, p ∈ default [] refPaths -> fs_existsSync env t p = false) ->
  exists st', phase1a token refPaths env st = (Ok [], st') /\ trace st' = trace st.
Proof.
  unfold phase1a. generalize (default [] refPaths) as paths. clear refPaths.
  intros paths. revert st.
  match goal with
  | |- forall st, _ -> exists st', foldM ?step _ ?init _ _ = _ /\ _ =>
      enough (forall acc st,
                (forall t p, p ∈ paths -> fs_existsSync env t p = false) ->
                exists st', foldM step paths acc env st = (Ok acc, st') /\ trace st' = trace st)
        as Hfold by (intros st; apply Hfold)
  end.
  induction paths as [|refPath paths IH]; intros acc st Hmissing.
  - by exists st.
  - cbn [foldM].
    destruct (IH acc {| tick := S (tick st); trace := trace st |}) as (st' & Hrest & Htrace).
    { intros t p Hp. apply Hmissing. by right. }
    exists st'. split; [|exact Htrace].
    erewrite bind_ok; [exact Hrest|].
    erewrite bind_ok
      by (unfold existsSync, ask; rewrite (Hmissing _ refPath) by (by left); reflexivity).
    reflexivity.
Qed.

Lemma phase1a_skips_missing_files_witness :
  exists st',
    phase1a "t" (Some ["a.png"; "b.png"]) worlds.nothing_exists worlds.start = (Ok [], st')
    /\ trace st' = [].
Proof.
  apply (phase1a_skips_missing_files "t" (Some ["a.png"; "b.png"]) worlds.nothing_exists
           worlds.start).
  reflexivity.
Defined.





(** X11: every request that phase 1 of a build sends goes to one of the
    four endpoints of the client, carries the access token that [loadToken]
    returned and, when it asks for an image, the landscape aspect ratio.
    Without a credential no request is sent at all. *)
Theorem build_requests_carry_token config env st :
  disk_ok env ->
  1 <= length (slides config) ->
  exists tokenData backgrounds st' evs,
    fst (loadToken env (after 1 [] st)) = Ok tokenData
    /\ buildPresentation_phase1 config env st = (Ok backgrounds, st')
    /\ trace st' = trace st ++ evs
    /\ match tokenData with
       | Some tokenData => Forall (request_ok (accessToken tokenData)) (requests evs)
       | None => requests evs = []
       end.
Proof.
  intros Hdisk Hlen.
  destruct (buildPresentation_phase1_effects config env st Hdisk Hlen)
    as (tokenData & st' & evs & Hload & Hrun & Htrace & _ & _ & Hreqs).
  by eexists tokenData, _, st', evs.
Qed.

Lemma build_requests_carry_token_witness :
  exists st' evs,
    snd (buildPresentation_phase1 (worlds.demo ["title"; "content"] (Some ["ref.png"]))
           worlds.all_ok worlds.start) = st'
    /\ trace st' = evs
    /\ Forall (request_ok "ya29.token") (requests evs).
Proof.
  destruct (build_requests_carry_token (worlds.demo ["title"; "content"] (Some ["ref.png"]))
              worlds.all_ok worlds.start)
    as (tokenData & backgrounds & st' & evs & Hload & Hrun & Htrace & Hreqs).
  - apply all_ok_disk_ok.
  - cbn. lia.
  - exists st', evs. rewrite Hrun. split; [reflexivity|]. split; [exact Htrace|].
    vm_compute in Hload. injection Hload as <-. exact Hreqs.
Defined.

(** X12: phase 1 of a build over N slides with R reference paths sends at
    most 2 R + N + 2 requests: two per reference, one for the anchor, two
    for its upload and one per later slide. *)
Theorem build_request_bound config env st :
  disk_ok env ->
  1 <= length (slides config) ->
  exists backgrounds st' evs,
    buildPresentation_phase1 config env st = (Ok backgrounds, st')
    /\ trace st' = trace st ++ evs
    /\ length (requests evs)
       <= 2 * length (default [] (refs config)) + length (slides config) + 2.
Proof.
  intros Hdisk Hlen.
  destruct (buildPresentation_phase1_effects config env st Hdisk Hlen)
    as (tokenData & st' & evs & _ & Hrun & Htrace & _ & Hcount & _).
  by eexists _, st', evs.
Qed.

Lemma build_request_bound_witness :
  exists st',
    snd (buildPresentation_phase1 (worlds.demo ["title"; "content"] (Some ["ref.png"]))
           worlds.all_ok worlds.start) = st'
    /\ length (requests (trace st')) <= 6.
Proof.
  destruct (build_request_bound (worlds.demo ["title"; "content"] (Some ["ref.png"]))
              worlds.all_ok worlds.start)
    as (backgrounds & st' & evs & Hrun & Htrace & Hcount).
  - apply all_ok_disk_ok.
  - cbn. lia.
  - exists st'. rewrite Hrun. split; [reflexivity|]. rewrite Htrace. exact Hcount.
Defined.

(** X13: an empty deck is not handled: with a valid credential,
    [generateWhiskBackgrounds] reads [slides[0].type] after the references
    are uploaded, which throws, so the build aborts; no image file has been
    written by then. *)
Theorem empty_deck_throws config env st tokenData st1 :
  disk_ok env ->
  slides config = [] ->
  loadToken env (after 1 [] st) = (Ok (Some tokenData), st1) ->
  exists message st' evs,
    buildPresentation_phase1 config env st = (Throw message, st')
    /\ trace st' = trace st ++ evs
    /\ written_paths evs = [].
Proof.
  intros Hdisk Hslides Hload.
  destruct (phase1a_total env Hdisk (accessToken tokenData) (refs config) st1)
    as (userRefs & st2 & Hrefs).
  destruct (phase1a_effects (accessToken tokenData) (refs config) env st1)
    as (outcome & st2' & evs & Hrefs' & Htrace & Hwritten & _).
  rewrite Hrefs in Hrefs'. injection Hrefs' as <- <-.
  eexists _, st2, evs. split; [|split; [|exact Hwritten]].
  - rewrite (buildPresentation_phase1_start env Hdisk).
    erewrite bind_throw; [reflexivity|].
    unfold generateWhiskBackgrounds.
    erewrite bind_ok by apply Hload. cbv beta iota.
    erewrite bind_ok by apply Hrefs.
    erewrite bind_throw; [reflexivity|].
    rewrite Hslides. reflexivity.
  - rewrite Htrace, (loadToken_trace _ _ _ _ Hload), trace_after. by rewrite app_nil_r.
Qed.

Lemma empty_deck_throws_witness :
  exists message st',
    buildPresentation_phase1 (worlds.demo [] None) worlds.all_ok worlds.start
    = (Throw message, st').
Proof.
  edestruct (empty_deck_throws (worlds.demo [] None) worlds.all_ok worlds.start)
    as (message & st' & evs & Hrun & _).
  - apply all_ok_disk_ok.
  - reflexivity.
  - reflexivity.
  - by exists message, st'.
Defined.




(** ** Phase 2: the markup files *)












(** ** The templates, further *)

Lemma escape_chars_inj s1 s2 : escape_chars s1 = escape_chars s2 -> s1 = s2.
Proof.
  revert s2. induction s1 as [|a s1 IH]; intros [|b s2] Heq.
  - reflexivity.
  - exfalso. cbn [escape_chars] in Heq. unfold entity in Heq.
    destruct (Ascii.eqb b "&"), (Ascii.eqb b "<"), (Ascii.eqb b ">"), (Ascii.eqb b "034");
      discriminate Heq.
  - exfalso. cbn [escape_chars] in Heq. unfold entity in Heq.
    destruct (Ascii.eqb a "&"), (Ascii.eqb a "<"), (Ascii.eqb a ">"), (Ascii.eqb a "034");
      discriminate Heq.
  - cbn [escape_chars] in Heq. unfold entity in Heq.
    destruct (Ascii.eqb_spec a "&") as [->|Ha1], (Ascii.eqb_spec b "&") as [->|Hb1];
      [injection Heq as Heq; by rewrite (IH _ Heq)| | |].
    { destruct (Ascii.eqb_spec b "<") as [->|?]; [discriminate Heq|].
      destruct (Ascii.eqb_spec b ">") as [->|?]; [discriminate Heq|].
      destruct (Ascii.eqb_spec b "034") as [->|?]; [discriminate Heq|].
      injection Heq as <- _. done. }
    { destruct (Ascii.eqb_spec a "<") as [->|?]; [discriminate Heq|].
      destruct (Ascii.eqb_spec a ">") as [->|?]; [discriminate Heq|].
      destruct (Ascii.eqb_spec a "034") as [->|?]; [discriminate Heq|].
      injection Heq as -> _. done. }
    destruct (Ascii.eqb_spec a "<") as [->|Ha2], (Ascii.eqb_spec b "<") as [->|Hb2];
      [injection Heq as Heq; by rewrite (IH _ Heq)| | |].
    { destruct (Ascii.eqb_spec b ">") as [->|?]; [discriminate Heq|].
      destruct (Ascii.eqb_spec b "034") as [->|?]; [discriminate Heq|].
      injection Heq as <- _. done. }
    { destruct (Ascii.eqb_spec a ">") as [->|?]; [discriminate Heq|].
      destruct (Ascii.eqb_spec a "034") as [->|?]; [discriminate Heq|].
      injection Heq as -> _. done. }
    destruct (Ascii.eqb_spec a ">") as [->|Ha3], (Ascii.eqb_spec b ">") as [->|Hb3];
      [injection Heq as Heq; by rewrite (IH _ Heq)| | |].
    { destruct (Ascii.eqb_spec b "034") as [->|?]; [discriminate Heq|].
      injection Heq as <- _. done. }
    { destruct (Ascii.eqb_spec a "034") as [->|?]; [discriminate Heq|].
      injection Heq as -> _. done. }
    destruct (Ascii.eqb_spec a "034") as [->|Ha4], (Ascii.eqb_spec b "034") as [->|Hb4];
      [injection Heq as Heq; by rewrite (IH _ Heq)| | |].
    { injection Heq as <- _. done. }
    { injection Heq as -> _. done. }
    injection Heq as -> Heq. by rewrite (IH _ Heq).
Qed.

(** X17: escaping loses nothing: two texts with the same escaped form are
    the same text, and the escaped form is at least as long as the text. *)
Theorem esc_injective s1 s2 :
  esc (Some s1) = esc (Some s2) ->
  s1 = s2 /\ String.length s1 <= String.length (esc (Some s1)).
Proof.
  rewrite !esc_escape_chars. intros Heq. split; [by apply escape_chars_inj|].
  clear Heq. induction s1 as [|a s1 IH]; [done|].
  cbn [escape_chars String.length]. unfold entity.
  destruct (Ascii.eqb a "&"), (Ascii.eqb a "<"), (Ascii.eqb a ">"), (Ascii.eqb a "034");
    rewrite ?append_cons; cbn [String.length]; change (EmptyString +:+ ?s) with s; lia.
Qed.

Lemma esc_injective_witness :
  String.length "a<b" <= String.length (esc (Some "a<b")).
Proof.
  destruct (esc_injective "a<b" "a<b" eq_refl) as [_ Hlen]. exact Hlen.
Defined.

Lemma append_for_ext n (piece1 piece2 : nat -> string) :
  (forall i, i < n -> piece1 i = piece2 i) -> append_for n piece1 = append_for n piece2.
Proof.
  intros Hpiece. unfold append_for.
  assert (forall l html,
            Forall (fun i => i < n) l ->
            fold_left (fun html i => html +:+ piece1 i) l html
            = fold_left (fun html i => html +:+ piece2 i) l html) as Hfold.
  { induction l as [|i l IH]; intros html Hl; [done|].
    apply Forall_cons in Hl as [Hi Hl]. cbn [fold_left]. rewrite Hpiece by done. by apply IH. }
  apply Hfold. apply Forall_forall. intros i Hi%elem_of_seq. lia.
Qed.

(** X18: the data and the features templates render three items at most:
    two descriptors with the same title and the same first three metrics
    (features) give the same markup, whatever follows and whatever the chart
    label is. *)
Theorem only_first_three_rendered bgImage s1 s2 :
  title s1 = title s2 ->
  take 3 (default [] (metrics s1)) = take 3 (default [] (metrics s2)) ->
  take 3 (default [] (features s1)) = take 3 (default [] (features s2)) ->
  dataSlide bgImage s1 = dataSlide bgImage s2
  /\ featuresSlide bgImage s1 = featuresSlide bgImage s2.
Proof.
  intros Htitle Hmetrics Hfeatures. split.
  - unfold dataSlide. cbv zeta. rewrite Htitle.
    assert (length (default [] (metrics s1)) `min` 3 = length (default [] (metrics s2)) `min` 3)
      as Hlen.
    { rewrite (Nat.min_comm _ 3), (Nat.min_comm _ 3), <- !length_take. by rewrite Hmetrics. }
    rewrite Hlen. do 3 f_equal. f_equal. f_equal. apply append_for_ext. intros i Hi.
    assert (default [] (metrics s1) !! i = default [] (metrics s2) !! i) as ->; [|done].
    rewrite <- (lookup_take_lt _ 3 i), <- (lookup_take_lt (default [] (metrics s2)) 3 i) by lia.
    by rewrite Hmetrics.
  - unfold featuresSlide. cbv zeta. by rewrite Htitle, Hfeatures.
Qed.

Lemma only_first_three_rendered_witness :
  let metric v := {| m_value := Some v; m_label := Some "label" |} in
  let slide ms label :=
    {| type := "data"; title := Some "KPIs"; subtitle := None; date := None; bullets := None;
       metrics := Some ms; chartLabel := label; features := None; heading := None;
       contactLines := None |} in
  dataSlide "bg.png" (slide [metric "1"; metric "2"; metric "3"; metric "4"] (Some "chart"))
  = dataSlide "bg.png" (slide [metric "1"; metric "2"; metric "3"] None).
Proof.
  intros metric slide.
  apply (only_first_three_rendered "bg.png"
           (slide [metric "1"; metric "2"; metric "3"; metric "4"] (Some "chart"))
           (slide [metric "1"; metric "2"; metric "3"] None)); reflexivity.
Defined.

Lemma uint_no_bracket c (d : Decimal.uint) :
  c = "<"%char \/ c = ">"%char -> occurrences c (NilEmpty.string_of_uint d) = 0.
Proof.
  intros Hc. induction d as [|d IH|d IH|d IH|d IH|d IH|d IH|d IH|d IH|d IH|d IH];
    [done|..]; cbn [NilEmpty.string_of_uint occurrences]; rewrite IH;
    by destruct Hc as [-> | ->].
Qed.

Lemma show_nat_no_bracket c n :
  c = "<"%char \/ c = ">"%char -> occurrences c (show_nat n) = 0.
Proof.
  intros Hc. unfold show_nat, NilZero.string_of_uint.
  destruct (Nat.to_uint n) eqn:Hn; [by destruct Hc as [-> | ->]|..];
    rewrite <- Hn; by apply uint_no_bracket.
Qed.

Lemma balanced_append_for n (piece : nat -> string) :
  (forall i, occurrences "<" (piece i) = occurrences ">" (piece i)) ->
  occurrences "<" (append_for n piece) = occurrences ">" (append_for n piece).
Proof.
  intros Hpiece. unfold append_for.
  assert (forall l html,
            occurrences "<" html = occurrences ">" html ->
            occurrences "<" (fold_left (fun html i => html +:+ piece i) l html)
            = occurrences ">" (fold_left (fun html i => html +:+ piece i) l html)) as Hfold.
  { induction l as [|i l IH]; intros html Hhtml; [done|].
    cbn [fold_left]. apply IH. by rewrite !occurrences_app, Hhtml, Hpiece. }
  by apply Hfold.
Qed.

Lemma balanced_join sep (pieces : list string) :
  occurrences "<" sep = occurrences ">" sep ->
  Forall (fun piece => occurrences "<" piece = occurrences ">" piece) pieces ->
  occurrences "<" (join sep pieces) = occurrences ">" (join sep pieces).
Proof.
  intros Hsep. unfold join. induction 1 as [|piece pieces Hpiece Hrest IH]; [done|].
  destruct Hrest as [|piece' pieces Hpiece' Hrest]; [done|].
  change (occurrences "<" (piece +:+ sep +:+ String.concat sep (piece' :: pieces))
          = occurrences ">" (piece +:+ sep +:+ String.concat sep (piece' :: pieces))).
  by rewrite !occurrences_app, Hpiece, Hsep, IH.
Qed.

Lemma Forall_imap_all {A B} (P : B -> Prop) (f : nat -> A -> B) (l : list A) :
  (forall i a, P (f i a)) -> Forall P (imap f l).
Proof.
  intros Hf. apply Forall_forall. intros b Hb%list_elem_of_lookup.
  destruct Hb as [i Hi]. rewrite list_lookup_imap in Hi.
  destruct (l !! i); [|done]. injection Hi as <-. apply Hf.
Qed.

Lemma esc_no_lt v : occurrences "<" (esc v) = 0.
Proof. apply esc_no_markup. by left. Qed.

Lemma esc_no_gt v : occurrences ">" (esc v) = 0.
Proof. apply esc_no_markup. right. by left. Qed.

Lemma show_nat_no_lt n : occurrences "<" (show_nat n) = 0.
Proof. apply show_nat_no_bracket. by left. Qed.

Lemma show_nat_no_gt n : occurrences ">" (show_nat n) = 0.
Proof. apply show_nat_no_bracket. by right. Qed.

Ltac count_brackets :=
  rewrite ?occurrences_app, ?esc_no_lt, ?esc_no_gt, ?show_nat_no_lt, ?show_nat_no_gt.

Lemma titleSlide_balanced bgImage s :
  occurrences "<" bgImage = occurrences ">" bgImage ->
  occurrences "<" (titleSlide bgImage s) = occurrences ">" (titleSlide bgImage s).
Proof.
  intros Hbg. unfold titleSlide, wrapSlide. cbv zeta.
  destruct (truthy_string (subtitle s)), (truthy_string (date s));
    count_brackets; rewrite Hbg; generalize (occurrences ">" bgImage); intros n;
    cbv -[Nat.add]; lia.
Qed.

Lemma contentSlide_balanced bgImage s :
  occurrences "<" bgImage = occurrences ">" bgImage ->
  occurrences "<" (contentSlide bgImage s) = occurrences ">" (contentSlide bgImage s).
Proof.
  intros Hbg. unfold contentSlide, wrapSlide. cbv zeta. count_brackets.
  rewrite Hbg, balanced_join.
  - generalize (occurrences ">" bgImage). intros n.
    match goal with |- context [occurrences ">"%char (join ?sep ?l)] =>
      generalize (occurrences ">"%char (join sep l)) end.
    intros m. cbv -[Nat.add]. lia.
  - reflexivity.
  - apply Forall_forall. intros piece Hpiece%list_elem_of_fmap.
    destruct Hpiece as (b & -> & _). count_brackets. reflexivity.
Qed.

Lemma dataSlide_balanced bgImage s :
  occurrences "<" bgImage = occurrences ">" bgImage ->
  occurrences "<" (dataSlide bgImage s) = occurrences ">" (dataSlide bgImage s).
Proof.
  intros Hbg. unfold dataSlide, wrapSlide. cbv zeta. count_brackets.
  rewrite Hbg, balanced_append_for.
  - generalize (occurrences ">" bgImage). intros n.
    match goal with |- context [occurrences ">"%char (append_for ?k ?p)] =>
      generalize (occurrences ">"%char (append_for k p)) end.
    intros m. cbv -[Nat.add]. lia.
  - intros i. count_brackets. reflexivity.
Qed.

Lemma featuresSlide_balanced bgImage s :
  occurrences "<" bgImage = occurrences ">" bgImage ->
  occurrences "<" (featuresSlide bgImage s) = occurrences ">" (featuresSlide bgImage s).
Proof.
  intros Hbg. unfold featuresSlide, wrapSlide. cbv zeta. count_brackets.
  rewrite Hbg.
  repeat match goal with |- context [occurrences "<"%char (append_for ?k ?p)] =>
    rewrite (balanced_append_for k p) by (intros i; count_brackets; reflexivity) end.
  generalize (occurrences ">" bgImage). intros n.
  repeat match goal with |- context [occurrences ">"%char (append_for ?k ?p)] =>
    generalize (occurrences ">"%char (append_for k p)); intro end.
  cbv -[Nat.add]. lia.
Qed.

Lemma closingSlide_balanced bgImage s :
  occurrences "<" bgImage = occurrences ">" bgImage ->
  occurrences "<" (closingSlide bgImage s) = occurrences ">" (closingSlide bgImage s).
Proof.
  intros Hbg. unfold closingSlide, wrapSlide. cbv zeta. count_brackets.
  rewrite Hbg.
  repeat match goal with |- context [occurrences "<"%char (join ?sep ?l)] =>
    rewrite (balanced_join sep l)
      by (try reflexivity; apply Forall_imap_all; intros i line; count_brackets; reflexivity)
  end.
  generalize (occurrences ">" bgImage). intros n.
  repeat match goal with |- context [occurrences ">"%char (join ?sep ?l)] =>
    generalize (occurrences ">"%char (join sep l)); intro end.
  cbv -[Nat.add]. lia.
Qed.

(** X19: the markup of every template has as many [<] as [>], whatever the
    texts of the slide are, provided the background path has: a text field
    can neither open nor close a tag. *)
Theorem templates_balanced_brackets bgImage s :
  occurrences "<" bgImage = occurrences ">" bgImage ->
  Forall (fun template =>
            occurrences "<" (template bgImage s) = occurrences ">" (template bgImage s))
    [titleSlide; contentSlide; dataSlide; featuresSlide; closingSlide].
Proof.
  intros Hbg. repeat constructor.
  - by apply titleSlide_balanced.
  - by apply contentSlide_balanced.
  - by apply dataSlide_balanced.
  - by apply featuresSlide_balanced.
  - by apply closingSlide_balanced.
Qed.

Lemma templates_balanced_brackets_witness :
  let hostile :=
    {| type := "features"; title := Some "<<<"; subtitle := None; date := None;
       bullets := None; metrics := None; chartLabel := None;
       features := Some [ {| f_title := Some ">"; f_description := Some "</p>" |} ];
       heading := None; contactLines := None |} in
  occurrences "<" (featuresSlide "bg.png" hostile)
  = occurrences ">" (featuresSlide "bg.png" hostile).
Proof.
  intros hostile.
  pose proof (templates_balanced_brackets "bg.png" hostile eq_refl) as Hall.
  apply Forall_cons in Hall as [_ Hall]. apply Forall_cons in Hall as [_ Hall].
  apply Forall_cons in Hall as [_ Hall]. apply Forall_cons in Hall as [Hfeatures _].
  exact Hfeatures.
Defined.

(** ** The command line *)

Lemma truthy_string_nonempty s : truthy_string (Some s) = true <-> s <> EmptyString.
Proof.
  cbn. destruct (String.eqb_spec s EmptyString) as [->|Hne]; cbn; split; try done.
Qed.

Lemma append_nil_l s : EmptyString +:+ s = s.
Proof. reflexivity. Qed.

Lemma parse_args_step arg value rest parsed :
  parse_args (arg :: value :: rest) parsed =
    if String.eqb arg "--name" && truthy_string (Some value) then
      parse_args rest
        {| p_name := Some value; p_style := p_style parsed; p_refs := p_refs parsed;
           p_outputBase := p_outputBase parsed |}
    else if String.eqb arg "--style" && truthy_string (Some value) then
      parse_args rest
        {| p_name := p_name parsed; p_style := Some value; p_refs := p_refs parsed;
           p_outputBase := p_outputBase parsed |}
    else if String.eqb arg "--refs" && truthy_string (Some value) then
      parse_args rest
        {| p_name := p_name parsed; p_style := p_style parsed;
           p_refs := Some (split_on "," value); p_outputBase := p_outputBase parsed |}
    else if String.eqb arg "--output" && truthy_string (Some value) then
      parse_args rest
        {| p_name := p_name parsed; p_style := p_style parsed; p_refs := p_refs parsed;
           p_outputBase := Some value |}
    else parse_args (value :: rest) parsed.
Proof. reflexivity. Qed.

(** Without its flag among the arguments, a required field is left as it
    was. *)
Lemma parse_args_without_name n :
  forall args parsed,
    length args <= n -> "--name" ∉ args -> p_name (parse_args args parsed) = p_name parsed.
Proof.
  induction n as [|n IH]; intros [|arg [|value rest]] parsed Hlen Hnot;
    try done; try (cbn in Hlen; lia).
  rewrite parse_args_step. cbn [length] in Hlen.
  assert ("--name" ∉ value :: rest) as Hnot1 by (intros Hin; apply Hnot; by right).
  assert ("--name" ∉ rest) as Hnot2 by (intros Hin; apply Hnot; by do 2 right).
  destruct (String.eqb_spec arg "--name") as [->|_]; [exfalso; apply Hnot; by left|].
  cbn [andb].
  destruct (String.eqb arg "--style" && truthy_string (Some value));
    [rewrite IH by (done || lia); done|].
  destruct (String.eqb arg "--refs" && truthy_string (Some value));
    [rewrite IH by (done || lia); done|].
  destruct (String.eqb arg "--output" && truthy_string (Some value));
    [rewrite IH by (done || lia); done|].
  rewrite IH by (done || cbn; lia). done.
Qed.

Lemma parse_args_without_style n :
  forall args parsed,
    length args <= n -> "--style" ∉ args -> p_style (parse_args args parsed) = p_style parsed.
Proof.
  induction n as [|n IH]; intros [|arg [|value rest]] parsed Hlen Hnot;
    try done; try (cbn in Hlen; lia).
  rewrite parse_args_step. cbn [length] in Hlen.
  assert ("--style" ∉ value :: rest) as Hnot1 by (intros Hin; apply Hnot; by right).
  assert ("--style" ∉ rest) as Hnot2 by (intros Hin; apply Hnot; by do 2 right).
  destruct (String.eqb arg "--name" && truthy_string (Some value));
    [rewrite IH by (done || lia); done|].
  destruct (String.eqb_spec arg "--style") as [->|_]; [exfalso; apply Hnot; by left|].
  cbn [andb].
  destruct (String.eqb arg "--refs" && truthy_string (Some value));
    [rewrite IH by (done || lia); done|].
  destruct (String.eqb arg "--output" && truthy_string (Some value));
    [rewrite IH by (done || lia); done|].
  rewrite IH by (done || cbn; lia). done.
Qed.

(** X20: the command line starts a build only if both [--name] and
    [--style] occur among the arguments, and then with a non-empty name and
    style and the demo deck; otherwise it prints the usage and exits with
    code 1. *)
Theorem cli_requires_name_and_style args demoSlides config :
  cli_config args demoSlides = Some config ->
  "--name" ∈ args /\ "--style" ∈ args
  /\ name config <> EmptyString /\ style config <> EmptyString
  /\ slides config = demoSlides.
Proof.
  unfold cli_config.
  destruct (truthy_string (p_name (parse_args args no_flags))) eqn:Hn; [|done].
  destruct (truthy_string (p_style (parse_args args no_flags))) eqn:Hs; [|done].
  cbn [negb orb]. intros [= <-]. cbn [name style slides].
  split; [|split; [|split; [|split; [|done]]]].
  - destruct (decide ("--name" ∈ args)) as [Hin|Hnot]; [done|].
    by rewrite (parse_args_without_name (length args)) in Hn.
  - destruct (decide ("--style" ∈ args)) as [Hin|Hnot]; [done|].
    by rewrite (parse_args_without_style (length args)) in Hs.
  - destruct (p_name (parse_args args no_flags)) as [n|]; [|done].
    by apply truthy_string_nonempty.
  - destruct (p_style (parse_args args no_flags)) as [s|]; [|done].
    by apply truthy_string_nonempty.
Qed.

Lemma cli_requires_name_and_style_witness :
  "--name" ∈ ["--style"; "dark"; "--name"; "deck"].
Proof.
  destruct (cli_requires_name_and_style ["--style"; "dark"; "--name"; "deck"] []
              {| name := "deck"; style := "dark"; refs := None; slides := [];
                 outputBase := None |} eq_refl) as [Hname _].
  exact Hname.
Defined.

Lemma split_on_free c s : free_of c s -> split_on c s = [s].
Proof.
  unfold free_of. induction s as [|a s IH]; [done|].
  cbn [occurrences split_on]. destruct (Ascii.eqb a c); [done|].
  intros Hfree. by rewrite IH.
Qed.

Lemma split_on_separator c piece s :
  free_of c piece ->
  split_on c (piece +:+ String c s) = piece :: split_on c s.
Proof.
  unfold free_of. induction piece as [|a piece IH].
  - intros _. rewrite append_nil_l. cbn [split_on]. by rewrite Ascii.eqb_refl.
  - rewrite append_cons. cbn [occurrences split_on]. destruct (Ascii.eqb a c); [done|].
    intros Hfree. by rewrite IH.
Qed.

Lemma split_on_join c pieces :
  pieces <> [] ->
  Forall (free_of c) pieces ->
  split_on c (join (String c EmptyString) pieces) = pieces.
Proof.
  intros Hne Hfree. unfold join.
  induction Hfree as [|piece pieces Hpiece Hrest IH]; [done|].
  destruct Hrest as [|piece' pieces Hpiece' Hrest].
  - by apply split_on_free.
  - change (String.concat (String c EmptyString) (piece :: piece' :: pieces))
      with (piece +:+ String c EmptyString
              +:+ String.concat (String c EmptyString) (piece' :: pieces)).
    rewrite append_cons, append_nil_l, split_on_separator by done.
    by rewrite IH.
Qed.

(** X21: the command line reads back what a caller spells out: for
    non-empty values and reference paths without a comma, the arguments
    [--name n --style s --refs p1,...,pk --output o] give a build of the
    demo deck with exactly that name, style, reference list and output
    base. *)
Theorem cli_reads_back n s (paths : list string) o demoSlides :
  n <> EmptyString ->
  s <> EmptyString ->
  o <> EmptyString ->
  paths <> [] ->
  Forall (free_of ",") paths ->
  join "," paths <> EmptyString ->
  cli_config ["--name"; n; "--style"; s; "--refs"; join "," paths; "--output"; o] demoSlides
  = Some {| name := n; style := s; refs := Some paths; slides := demoSlides;
            outputBase := Some o |}.
Proof.
  intros Hn Hs Ho Hpaths Hfree Hjoined.
  apply truthy_string_nonempty in Hn, Hs, Ho, Hjoined.
  unfold cli_config.
  rewrite parse_args_step.
  change (String.eqb "--name" "--name") with true. rewrite Hn. cbn [andb].
  rewrite parse_args_step.
  change (String.eqb "--style" "--name") with false.
  change (String.eqb "--style" "--style") with true. rewrite Hs. cbn [andb].
  rewrite parse_args_step.
  change (String.eqb "--refs" "--name") with false.
  change (String.eqb "--refs" "--style") with false.
  change (String.eqb "--refs" "--refs") with true. rewrite Hjoined. cbn [andb].
  rewrite parse_args_step.
  change (String.eqb "--output" "--name") with false.
  change (String.eqb "--output" "--style") with false.
  change (String.eqb "--output" "--refs") with false.
  change (String.eqb "--output" "--output") with true. rewrite Ho. cbn [andb].
  cbn [parse_args p_name p_style p_refs p_outputBase]. rewrite Hn, Hs.
  cbn [negb orb default from_option id].
  by rewrite (split_on_join "," paths).
Qed.

Lemma cli_reads_back_witness :
  cli_config ["--name"; "deck"; "--style"; "dark tech"; "--refs"; "a.png,b.png";
              "--output"; "/tmp"] []
  = Some {| name := "deck"; style := "dark tech"; refs := Some ["a.png"; "b.png"];
            slides := []; outputBase := Some "/tmp" |}.
Proof.
  apply (cli_reads_back "deck" "dark tech" ["a.png"; "b.png"] "/tmp" []); try done.
  by repeat constructor.
Defined.
